(** * F95API: query resolution and thread retrieval

    A shallow embedding of the TypeScript sources

      - class [Thread]                ([scripts/classes/thread.ts])
      - [fetchHTML], [fetchGETResponse]
                                      ([scripts/network-helper.ts])
      - class [SearchQuery]           ([scripts/classes/search-query.ts])
      - class [HandiworkSearchQuery]  (the handiwork query, in the same file)
      - [fetchResultURLs], [extractLinkFromResult]
                                      (the thread search, in
                                       [scripts/fetch-data/fetch-platform-data.ts])
      - the URL checks and [authenticate] of [scripts/network-helper.ts]
      - [fetchHandiworkURLs]          ([scripts/fetch-data/fetch-handiwork.ts])
      - class [Basic]                 ([scripts/classes/handiwork/basic.ts])
      - the text parsers of           [scripts/scraper.ts]
      - [Post.fetch]                  ([scripts/classes/mapping/post.ts])
      - [parseLatestPlatformHTML]     ([scripts/fetch-data/fetch-platform-data.ts])

    and of the pieces of the JavaScript run time they lean on
    ([Array.prototype.sort], [Array.prototype.slice], [Promise.all],
    [URLSearchParams], [String.prototype.trim]).

    An [async] function is a function into [outcome]: it returns, throws
    (its promise rejects) or stays pending.  A method that assigns to the
    fields of [this] is a function from the receiver to an outcome and the
    receiver after the call. *)

From stdpp Require Import base list strings pretty.
From Stdlib Require Import ZArith Ascii Sorting.Sorted Sorting.Permutation.

Local Open Scope Z_scope.

(** ** Values that are thrown *)

(** [classes/errors.ts] gives the network errors an [id] and a [message];
    the other constructors are the built-in error classes of the run time. *)
Inductive error : Type :=
| GenericAxiosError (id : Z) (message : string)
| UnexpectedResponseContentType (id : Z) (message : string)
| TypeError (message : string)
| RangeError (message : string)
| Error (message : string).

(** ** [classes/result.ts]: the success/failure container *)

Inductive Result (E T : Type) : Type :=
| failure (value : E)
| success (value : T).
Arguments failure {E T} value.
Arguments success {E T} value.

Definition isSuccess {E T} (r : Result E T) : bool :=
  match r with success _ => true | failure _ => false end.

Definition isFailure {E T} (r : Result E T) : bool :=
  match r with success _ => false | failure _ => true end.

(** ** Outcomes of a call *)

Inductive outcome (A : Type) : Type :=
| Return (a : A)
| Throw (e : error)
| Pending.
Arguments Return {A} a.
Arguments Throw {A} e.
Arguments Pending {A}.

(** A method: the receiver goes in, an outcome and the receiver as the
    call left it come out. *)
Definition method (S A : Type) : Type := S -> outcome A * S.

Definition ret {S A} (a : A) : method S A := fun this => (Return a, this).

Definition throw {S A} (e : error) : method S A := fun this => (Throw e, this).

Definition bind {S A B} (m : method S A) (k : A -> method S B) : method S B :=
  fun this =>
    match m this with
    | (Return a, this') => k a this'
    | (Throw e, this') => (Throw e, this')
    | (Pending, this') => (Pending, this')
    end.

(** A call that does not touch the receiver. *)
Definition lift {S A} (o : outcome A) : method S A := fun this => (o, this).

(** An assignment to a field of the receiver. *)
Definition assign {S} (f : S -> S) : method S unit := fun this => (Return tt, f this).

Declare Scope method_scope.
Delimit Scope method_scope with method.
Notation "x <- m ;; k" := (bind m (fun x => k))
  (at level 100, m at next level, right associativity) : method_scope.
Notation "m ;;; k" := (bind m (fun _ => k))
  (at level 100, right associativity) : method_scope.

(** A step unwinds when it leaves with a thrown value instead of a value
    handed back to its caller. *)
Definition unwinds {S A} (m : method S A) (this : S) : Prop :=
  exists e, fst (m this) = Throw e.

Definition never_unwinds {S A} (m : method S A) : Prop :=
  forall this, ~ unwinds m this.

(** ** [Array.prototype.sort]

    The sort of the run time is stable, and for a consistent comparator
    every stable sort gives the same array; insertion from the right is
    the one written here.  [comparefn a b > 0] puts [b] first. *)

Fixpoint sorted_insert {A} (comparefn : A -> A -> Z) (x : A) (l : list A) : list A :=
  match l with
  | [] => [x]
  | y :: l' =>
      if 0 <? comparefn x y then y :: sorted_insert comparefn x l'
      else x :: y :: l'
  end.

Definition Array_sort {A} (comparefn : A -> A -> Z) (l : list A) : list A :=
  foldr (sorted_insert comparefn) [] l.

(** ** [Array.prototype.slice] *)

Definition Array_slice {A} (start final : Z) (l : list A) : list A :=
  let len := Z.of_nat (length l) in
  let k := if start <? 0 then Z.max (len + start) 0 else Z.min start len in
  let fin := if final <? 0 then Z.max (len + final) 0 else Z.min final len in
  take (Z.to_nat (fin - k)) (drop (Z.to_nat k) l).

(** ** [Promise.all]

    [promises] holds, by request index, the value each promise fulfils
    with; [order] lists the indices in the order in which the promises
    settle.  Every settlement stores its value in the slot of its own
    index; the combined promise fulfils once no slot is empty. *)

Definition settle {R} (promises : list R) (values : list (option R)) (i : nat)
  : list (option R) :=
  match promises !! i with
  | Some r => <[i := Some r]> values
  | None => values
  end.

Definition Promise_all {R} (promises : list R) (order : list nat) : outcome (list R) :=
  let values := foldl (settle promises) (replicate (length promises) None) order in
  match mapM id values with
  | Some rs => Return rs
  | None => Pending
  end.

(** ** What the pipeline is given

    A number that a parser may fail to read is an [option]: [None] is
    [NaN].  A date is its time in epoch milliseconds, [NaN] when it is not
    valid; the average of a rating is a fraction, numerator and
    denominator.  Identifiers, page counts and limits are integers. *)

Definition Date : Type := option Z.

(** What [axios] answers with.  A response is an object with the members
    [data], [status], [statusText], [headers], [config] and [request] and
    with no other; the two below are the ones whose content matters here.
    The content type of the answer is one of the [headers]. *)
Record AxiosResponse : Type := {
  data : string;
  headers : list (string * string)
}.

(** The JSON-LD island of a page: a key/value tree. *)
#[warnings="-register-all"]
Inductive TJsonLD : Type :=
| JString (s : string)
| JObject (members : list (string * TJsonLD)).

Record TRating : Type := {
  average : option (Z * Z);
  best : option Z;
  count : option Z
}.

Record PlatformUser : Type := { user_id : option Z }.

(** A post, with the fields [classes/mapping/post.ts] reads from the page;
    [post_id] is the identifier the thread sorts on. *)
Record Post : Type := {
  post_id : Z;
  post_number : Z;
  post_published : Date;
  post_lastEdit : Date;
  post_owner : PlatformUser;
  post_bookmarked : bool;
  post_message : string
}.

(** What the selectors of [constants/css-selector.ts] find on the first
    page of a thread. *)
Record ThreadDOM : Type := {
  dom_creation : option string;
  dom_ownerID : option string;
  dom_tags : list string;
  dom_prefixes : list string;
  dom_title : string;
  dom_lastPage : string;
  dom_JSONLD : outcome TJsonLD
}.

(** The platform and the collaborators of the pipeline: constants of
    [constants/url.ts], the session, the transport, the HTML library and
    the parsers of the run time.

    - [new_URL rel base] is [new URL(rel, base).toString()], [None] where
      the constructor throws.
    - [fetchHTML] and [fetchPOSTResponse] are the two functions that
      [thread.ts] imports from the network helper.  The helper it was
      written against exports both; they are taken by their signatures:
      each fulfils with a [Result], a page or a response on success.  (The
      helper under [network-helper.ts] has no [fetchPOSTResponse]; its own
      [fetchHTML] is [NetworkHelper.fetchHTML] below.)
    - [cheerio_thread] is the first page of a thread under the selectors,
      and [cheerio_results] gives, for every result body of a search page,
      the [href] of its title link, [None] where there is none.
    - [parsePostsInPage] is the page parser of [Thread]: it hands every
      post element of the page to the class [Post], and fails when that
      fails.
    - [completion_order] is the order in which the page requests of one
      fan-out settle. *)
Record Platform : Type := {
  F95_BASE_URL : string;
  F95_POSTS_NUMBER : string;
  session_token : string;
  new_URL : string -> string -> option string;
  fetchHTML : string -> Result error string;
  fetchPOSTResponse : string -> list (string * string) -> Result error AxiosResponse;
  cheerio_thread : string -> ThreadDOM;
  cheerio_results : string -> list (option string);
  parsePostsInPage : string -> outcome (list Post);
  parseInt : option string -> option Z;
  parseFloat : option string -> option (Z * Z);
  new_Date : option string -> Date;
  completion_order : list nat
}.

(** ** [String.prototype.includes] *)

Definition includes (searchString s : string) : bool :=
  match String.index 0 searchString s with
  | Some _ => true
  | None => false
  end.

(** ** [classes/thread.ts] *)

Record Thread : Type := {
  _id : Z;
  _url : option string;
  _title : option string;
  _tags : option (list string);
  _prefixes : option (list string);
  _posts : option (list Post);
  _rating : option TRating;
  _owner : option PlatformUser;
  _creation : option Date
}.

(** [new Thread(id)]: every other field is still undefined. *)
Definition new_Thread (id : Z) : Thread :=
  {| _id := id; _url := None; _title := None; _tags := None;
     _prefixes := None; _posts := None; _rating := None; _owner := None;
     _creation := None |}.

Definition set_url (v : string) (t : Thread) : Thread :=
  {| _id := _id t; _url := Some v; _title := _title t; _tags := _tags t;
     _prefixes := _prefixes t; _posts := _posts t; _rating := _rating t;
     _owner := _owner t; _creation := _creation t |}.

Definition set_title (v : string) (t : Thread) : Thread :=
  {| _id := _id t; _url := _url t; _title := Some v; _tags := _tags t;
     _prefixes := _prefixes t; _posts := _posts t; _rating := _rating t;
     _owner := _owner t; _creation := _creation t |}.

Definition set_creation (v : Date) (t : Thread) : Thread :=
  {| _id := _id t; _url := _url t; _title := _title t; _tags := _tags t;
     _prefixes := _prefixes t; _posts := _posts t; _rating := _rating t;
     _owner := _owner t; _creation := Some v |}.

Definition set_tags (v : list string) (t : Thread) : Thread :=
  {| _id := _id t; _url := _url t; _title := _title t; _tags := Some v;
     _prefixes := _prefixes t; _posts := _posts t; _rating := _rating t;
     _owner := _owner t; _creation := _creation t |}.

Definition set_prefixes (v : list string) (t : Thread) : Thread :=
  {| _id := _id t; _url := _url t; _title := _title t; _tags := _tags t;
     _prefixes := Some v; _posts := _posts t; _rating := _rating t;
     _owner := _owner t; _creation := _creation t |}.

Definition set_owner (v : PlatformUser) (t : Thread) : Thread :=
  {| _id := _id t; _url := _url t; _title := _title t; _tags := _tags t;
     _prefixes := _prefixes t; _posts := _posts t; _rating := _rating t;
     _owner := Some v; _creation := _creation t |}.

Definition set_rating (v : TRating) (t : Thread) : Thread :=
  {| _id := _id t; _url := _url t; _title := _title t; _tags := _tags t;
     _prefixes := _prefixes t; _posts := _posts t; _rating := Some v;
     _owner := _owner t; _creation := _creation t |}.

Definition set_posts (v : list Post) (t : Thread) : Thread :=
  {| _id := _id t; _url := _url t; _title := _title t; _tags := _tags t;
     _prefixes := _prefixes t; _posts := Some v; _rating := _rating t;
     _owner := _owner t; _creation := _creation t |}.

Section ThreadMethods.

Context (P : Platform).

Local Open Scope method_scope.

(** The parameters [setMaximumPostsForPage] sends. *)
Definition params (this : Thread) (n : Z) : list (string * string) :=
  [ ("_xfResponseType", "json");
    ("_xfRequestUri",
     "/account/dpp-update?content_type=thread&content_id=" +:+ pretty (_id this));
    ("_xfToken", session_token P);
    ("_xfWithData", "1");
    ("content_id", pretty (_id this));
    ("content_type", "thread");
    ("dpp_custom_config[posts]", pretty n) ].

(** [setMaximumPostsForPage]: one POST; a failed response is thrown. *)
Definition setMaximumPostsForPage (n : Z) : method Thread unit :=
  fun this =>
    let response := fetchPOSTResponse P (F95_POSTS_NUMBER P) (params this n) in
    match response with
    | failure e => (Throw e, this)
    | success _ => (Return tt, this)
    end.

(** The loop [for (let i = 1; i <= pages; i++)]: no turn when [pages] is
    [NaN] or below 1. *)
Definition page_indices (pages : option Z) : list Z :=
  match pages with
  | Some n => seqZ 1 n
  | None => []
  end.

(** The body of that loop: the URL of page [i] is built and its request
    started; the list holds what each request settles with. *)
Fixpoint request_pages (indices : list Z)
  : outcome (list (Result error string)) :=
  match indices with
  | [] => Return []
  | i :: rest =>
      match new_URL P ("page-" +:+ pretty i) (F95_BASE_URL P) with
      | None => Throw (TypeError "Invalid URL")
      | Some url =>
          let htmlResponse := fetchHTML P url in
          match request_pages rest with
          | Return htmlPromiseList => Return (htmlResponse :: htmlPromiseList)
          | Throw e => Throw e
          | Pending => Pending
          end
      end
  end.

(** The loop [for (const response of responses)]. *)
Fixpoint scrape_pages (responses : list (Result error string))
    (fetchedPosts : list Post) : outcome (list Post) :=
  match responses with
  | [] => Return fetchedPosts
  | response :: rest =>
      match response with
      | success html =>
          match parsePostsInPage P html with
          | Return posts => scrape_pages rest (fetchedPosts ++ posts)
          | Throw e => Throw e
          | Pending => Pending
          end
      | failure e => Throw e
      end
  end.

(** The comparator handed to [sort]. *)
Definition compare_posts (a b : Post) : Z :=
  if post_id b <? post_id a then 1
  else if post_id a <? post_id b then -1
  else 0.

Definition fetchPosts (pages : option Z) : method Thread (list Post) :=
  setMaximumPostsForPage 100 ;;;
  htmlPromiseList <- lift (request_pages (page_indices pages)) ;;
  responses <- lift (Promise_all htmlPromiseList (completion_order P)) ;;
  fetchedPosts <- lift (scrape_pages responses []) ;;
  ret (Array_sort compare_posts fetchedPosts).

(** [data[key]] on a JSON-LD tree; [None] is [undefined]. *)
Definition member (data : TJsonLD) (key : string) : option TJsonLD :=
  match data with
  | JObject members => snd <$> List.find (fun m => String.eqb (fst m) key) members
  | JString _ => None
  end.

(** The string a parser of the run time sees when handed a tree. *)
Definition ToString (v : option TJsonLD) : option string :=
  match v with
  | Some (JString s) => Some s
  | Some (JObject _) => Some "[object Object]"
  | None => None
  end.

Definition parseRating (data : TJsonLD) : outcome TRating :=
  match member data "aggregateRating" with
  | None => Throw (TypeError "Cannot read properties of undefined")
  | Some ratingTree =>
      Return {| average := parseFloat P (ToString (member ratingTree "ratingValue"));
                best := parseInt P (ToString (member ratingTree "bestRating"));
                count := parseInt P (ToString (member ratingTree "ratingCount")) |}
  end.

Definition fetch : method Thread unit :=
  fun this =>
    match new_URL P (pretty (_id this)) (F95_BASE_URL P) with
    | None => (Throw (TypeError "Invalid URL"), this)
    | Some url =>
        let this := set_url url this in
        match fetchHTML P url with
        | success html =>
            let doc := cheerio_thread P html in
            (JSONLD <- lift (dom_JSONLD doc) ;;
             assign (set_title (dom_title doc)) ;;;
             assign (set_creation (new_Date P (dom_creation doc))) ;;;
             assign (set_tags (dom_tags doc)) ;;;
             assign (set_prefixes (dom_prefixes doc)) ;;;
             assign (set_owner {| user_id := parseInt P (dom_ownerID doc) |}) ;;;
             rating <- lift (parseRating JSONLD) ;;
             assign (set_rating rating) ;;;
             let pages := parseInt P (Some (dom_lastPage doc)) in
             posts <- fetchPosts pages ;;
             assign (set_posts posts)) this
        | failure e => (Throw e, this)
        end
    end.

End ThreadMethods.

(** ** [URL] and [URLSearchParams] *)

Record URL : Type := {
  href : string;
  searchParams : list (string * string)
}.

(** [new URL(s)] for a constant [s] that carries no query. *)
Definition URL_of (s : string) : URL := {| href := s; searchParams := [] |}.

Definition searchParams_append (name value : string) (url : URL) : URL :=
  {| href := href url; searchParams := searchParams url ++ [(name, value)] |}.

Fixpoint set_first (name value : string) (l : list (string * string))
  : list (string * string) :=
  match l with
  | [] => []
  | (k, v) :: rest =>
      if String.eqb k name
      then (k, value) :: List.filter (fun p => negb (String.eqb (fst p) name)) rest
      else (k, v) :: set_first name value rest
  end.

(** [set]: the first pair of that name takes the value and the others go;
    with no such pair the new one is appended. *)
Definition searchParams_set (name value : string) (url : URL) : URL :=
  if existsb (fun p => String.eqb (fst p) name) (searchParams url)
  then {| href := href url; searchParams := set_first name value (searchParams url) |}
  else searchParams_append name value url.

(** The [application/x-www-form-urlencoded] serializer. *)
Definition hex_digit (n : N) : ascii :=
  if (n <? 10)%N then ascii_of_N (48 + n) else ascii_of_N (55 + n).

Definition urlencode_byte (c : ascii) : string :=
  let n := N_of_ascii c in
  if ((48 <=? n) && (n <=? 57) || (65 <=? n) && (n <=? 90)
      || (97 <=? n) && (n <=? 122)
      || (n =? 42) || (n =? 45) || (n =? 46) || (n =? 95))%N
  then String c EmptyString
  else if (n =? 32)%N then "+"
  else String "%" (String (hex_digit (n / 16)) (String (hex_digit (n mod 16)) EmptyString)).

Fixpoint urlencode (s : string) : string :=
  match s with
  | EmptyString => EmptyString
  | String c s' => urlencode_byte c +:+ urlencode s'
  end.

Definition searchParams_toString (l : list (string * string)) : string :=
  String.concat "&" (map (fun p => urlencode (fst p) +:+ "=" +:+ urlencode (snd p)) l).

(** ** [String.prototype.trim]

    The strings of this development are texts of ASCII, one character to
    a code unit.  Of the white space that [trim] removes, such a text can
    hold the characters 9 to 13 and the space; the run time also removes
    U+00A0, U+FEFF and the spaces of Unicode, which no text of ASCII
    holds. *)

Definition is_white_space (c : ascii) : bool :=
  let n := N_of_ascii c in ((n =? 32) || (9 <=? n) && (n <=? 13))%N.

Fixpoint trimStart (s : string) : string :=
  match s with
  | EmptyString => EmptyString
  | String c s' => if is_white_space c then trimStart s' else s
  end.

Definition trim (s : string) : string :=
  String.rev (trimStart (String.rev (trimStart s))).

Definition line_feed : string := String (ascii_of_N 10) EmptyString.

(** ** [class-validator]

    What the library reports for one violated constraint is kept as the
    text it is rendered to. *)
Definition ValidationError : Type := string.

(** The constraints that the decorators of [search-query.ts] name.  A
    decorator is handed the value of its constraint once, when the class
    is defined; a value that is [undefined] is [None]. *)
Module validator.

(** [ArrayMaxSize(max)]: [array.length <= max], which no length satisfies
    against [undefined]. *)
Definition ArrayMaxSize {A} (max : option Z) (array : list A) : bool :=
  match max with
  | Some max => Z.of_nat (length array) <=? max
  | None => false
  end.

(** [Min(min)]: [value >= min] for two numbers. *)
Definition Min (min : option Z) (value : Z) : bool :=
  match min with
  | Some min => min <=? value
  | None => false
  end.

(** [IsIn(possibleValues)]: [value] is one of the values.  How the check
    answers when it is given no array differs between the versions of the
    library; [not_an_array] is that answer. *)
Definition IsIn {A} `{EqDecision A} (not_an_array : bool)
    (possibleValues : option (list A)) (value : A) : bool :=
  match possibleValues with
  | Some possibleValues => bool_decide (value ∈ possibleValues)
  | None => not_an_array
  end.

End validator.

(** ** Class [SearchQuery] of [classes/search-query.ts] *)

Module SearchQuery.

Definition MAX_TAGS : Z := 5.
Definition MIN_PAGE : Z := 1.
Definition VALID_CATEGORY : list string := ["games"; "comics"; "animations"; "assets"].
Definition VALID_SORT : list string := ["date"; "likes"; "views"; "title"; "rating"].
Definition VALID_DATE : list (option Z) :=
  [Some 365; Some 180; Some 90; Some 30; Some 14; Some 7; Some 3; Some 1; None].

(** The numbers of a query are identifiers, day counts and a page index:
    integers.  [date] is [None] for [null]. *)
Record t : Type := {
  category : string;
  tags : list Z;
  prefixes : list Z;
  sort : string;
  date : option Z;
  page : Z
}.

(** [new SearchQuery()] *)
Definition new : t :=
  {| category := "games"; tags := []; prefixes := []; sort := "date";
     date := None; page := MIN_PAGE |}.

(** [SearchQuery.prototype.FIELD] for a field of the class.  The fields
    are assigned to each instance when it is constructed; the prototype
    has none of them, so the read gives [undefined]. *)
Definition prototype {A} (field : A) : option A := None.

Section Decorators.

Context (not_an_array : bool).

(** What the decorators of the class report for an instance.  Each is
    given its constraint as a member of [SearchQuery.prototype].  [tags]
    and [prefixes] are arrays and [page] is an integer by their types, so
    [IsArray] and [IsInt] report nothing. *)
Definition decorators (this : t) : list ValidationError :=
  (if validator.IsIn not_an_array (prototype VALID_CATEGORY) (category this) then []
   else ["Invalid category parameter"]) ++
  (if validator.ArrayMaxSize (prototype MAX_TAGS) (tags this) then []
   else ["Too many tags"]) ++
  (if validator.IsIn not_an_array (prototype VALID_SORT) (sort this) then []
   else ["Invalid sort parameter"]) ++
  (if validator.IsIn not_an_array (prototype VALID_DATE) (date this) then []
   else ["Invalid date parameter"]) ++
  (if validator.Min (prototype MIN_PAGE) (page this) then []
   else ["The minimum page value must be undefined"]).

End Decorators.

Section Methods.

(** [validateSync] is the validator library at work on the decorated
    class; [F95_LATEST_PHP] is a constant of [constants/url.ts]. *)
Context (validateSync : t -> list ValidationError).
Context (F95_LATEST_PHP : string).

Definition validate (this : t) : bool :=
  (length (validateSync this) =? 0)%nat.

Definition createUrl (this : t) : outcome URL :=
  if negb (validate this) then Throw (Error "Invalid query")
  else
    let url := URL_of F95_LATEST_PHP in
    let url := searchParams_set "cmd" "list" url in
    let url := searchParams_set "cat" (category this) url in
    let url :=
      foldl (fun url tag => searchParams_append "tags[]" (pretty tag) url)
            url (tags this) in
    let url :=
      foldl (fun url p => searchParams_append "prefixes[]" (pretty p) url)
            url (prefixes this) in
    let url := searchParams_set "sort" (sort this) url in
    match date this with
    | None =>
        Throw (TypeError "Cannot read properties of null (reading 'toString')")
    | Some d =>
        let url := searchParams_set "date" (pretty d) url in
        let url := searchParams_set "page" (pretty (page this)) url in
        Return url
    end.

End Methods.

End SearchQuery.

(** ** Class [HandiworkSearchQuery] *)

(** The tag [itype] of a query object: the name of a query class, one of
    "LatestSearchQuery", "ThreadSearchQuery" and "HandiworkSearchQuery". *)
Definition TQueryInterface : Type := string.

(** The result type of [selectSearchType]. *)
Inductive TSearchType : Type := latest | thread.

(** The order values of the unified query, in the order of the type
    [THandiworkOrder]. *)
Definition THandiworkOrder : list string :=
  ["date"; "likes"; "relevance"; "replies"; "title"; "views"].

(** Modelled from the spec: the type [TLatestOrder] of
    [latest-search-query.ts], the order values the latest listing takes. *)
Definition TLatestOrder : list string :=
  ["date"; "likes"; "views"; "title"; "rating"].

(** Modelled from the spec: the type [TThreadOrder] of
    [thread-search-query.ts], the order values the thread search takes. *)
Definition TThreadOrder : list string :=
  ["date"; "relevance"; "replies"; "views"; "title"].

Module HandiworkSearchQuery.

Definition MIN_PAGE : Z := 1.

(** An instance of [HandiworkSearchQuery].  A type assertion changes
    neither the object nor its class, so the object the casts hand back
    is this one; [onlyTitles] is the member that only [castToThread]
    assigns, [None] while it is undefined.  [newerThan] and [olderThan]
    are [None] for [null]. *)
Record t : Type := {
  keywords : string;
  newerThan : option Date;
  olderThan : option Date;
  includedTags : list string;
  excludedTags : list string;
  includedPrefixes : option (list string);
  category : option string;
  order : string;
  page : Z;
  itype : TQueryInterface;
  onlyTitles : option bool
}.

(** [new HandiworkSearchQuery()] *)
Definition new : t :=
  {| keywords := ""; newerThan := None; olderThan := None;
     includedTags := []; excludedTags := []; includedPrefixes := None;
     category := None; order := "relevance"; page := 1;
     itype := "HandiworkSearchQuery"; onlyTitles := None |}.

Definition set_itype (v : TQueryInterface) (q : t) : t :=
  {| keywords := keywords q; newerThan := newerThan q; olderThan := olderThan q;
     includedTags := includedTags q; excludedTags := excludedTags q;
     includedPrefixes := includedPrefixes q; category := category q;
     order := order q; page := page q; itype := v; onlyTitles := onlyTitles q |}.

Definition set_order (v : string) (q : t) : t :=
  {| keywords := keywords q; newerThan := newerThan q; olderThan := olderThan q;
     includedTags := includedTags q; excludedTags := excludedTags q;
     includedPrefixes := includedPrefixes q; category := category q;
     order := v; page := page q; itype := itype q; onlyTitles := onlyTitles q |}.

Definition set_excludedTags (v : list string) (q : t) : t :=
  {| keywords := keywords q; newerThan := newerThan q; olderThan := olderThan q;
     includedTags := includedTags q; excludedTags := v;
     includedPrefixes := includedPrefixes q; category := category q;
     order := order q; page := page q; itype := itype q; onlyTitles := onlyTitles q |}.

Definition set_newerThan (v : option Date) (q : t) : t :=
  {| keywords := keywords q; newerThan := v; olderThan := olderThan q;
     includedTags := includedTags q; excludedTags := excludedTags q;
     includedPrefixes := includedPrefixes q; category := category q;
     order := order q; page := page q; itype := itype q; onlyTitles := onlyTitles q |}.

Definition set_olderThan (v : option Date) (q : t) : t :=
  {| keywords := keywords q; newerThan := newerThan q; olderThan := v;
     includedTags := includedTags q; excludedTags := excludedTags q;
     includedPrefixes := includedPrefixes q; category := category q;
     order := order q; page := page q; itype := itype q; onlyTitles := onlyTitles q |}.

Definition set_onlyTitles (v : bool) (q : t) : t :=
  {| keywords := keywords q; newerThan := newerThan q; olderThan := olderThan q;
     includedTags := includedTags q; excludedTags := excludedTags q;
     includedPrefixes := includedPrefixes q; category := category q;
     order := order q; page := page q; itype := itype q; onlyTitles := Some v |}.

Definition set_keywords (v : string) (q : t) : t :=
  {| keywords := v; newerThan := newerThan q; olderThan := olderThan q;
     includedTags := includedTags q; excludedTags := excludedTags q;
     includedPrefixes := includedPrefixes q; category := category q;
     order := order q; page := page q; itype := itype q; onlyTitles := onlyTitles q |}.

Definition set_includedTags (v : list string) (q : t) : t :=
  {| keywords := keywords q; newerThan := newerThan q; olderThan := olderThan q;
     includedTags := v; excludedTags := excludedTags q;
     includedPrefixes := includedPrefixes q; category := category q;
     order := order q; page := page q; itype := itype q; onlyTitles := onlyTitles q |}.

Definition set_page (v : Z) (q : t) : t :=
  {| keywords := keywords q; newerThan := newerThan q; olderThan := olderThan q;
     includedTags := includedTags q; excludedTags := excludedTags q;
     includedPrefixes := includedPrefixes q; category := category q;
     order := order q; page := v; itype := itype q; onlyTitles := onlyTitles q |}.

(** What the decorators of the class ask: only [page] is decorated. *)
Definition decorators (this : t) : list ValidationError :=
  if MIN_PAGE <=? page this then [] else ["The minimum page value must be 1"].

(** A string is truthy when it is not empty. *)
Definition truthy (s : string) : bool :=
  match s with EmptyString => false | String _ _ => true end.

Definition selectSearchType (this : t) : TSearchType :=
  let MAX_TAGS_LATEST_SEARCH := 5 in
  let DEFAULT_SEARCH_TYPE := latest in
  if truthy (keywords this)
     || (MAX_TAGS_LATEST_SEARCH <? Z.of_nat (length (includedTags this)))
  then thread
  else DEFAULT_SEARCH_TYPE.

(** [castToLatest].  [query] is [this] under another static type.  The
    call [query.findNearestDate] finds no such method on the class of the
    object and throws, after [itype] and [order] were assigned. *)
Definition castToLatest : method t t :=
  fun this =>
    let orderFilter := order this in
    let this := set_itype "LatestSearchQuery" this in
    let orderFilter :=
      if String.eqb orderFilter "relevance" then "rating"
      else if String.eqb orderFilter "replies" then "views"
      else orderFilter in
    let this := set_order orderFilter this in
    match newerThan this with
    | Some _ => (Throw (TypeError "query.findNearestDate is not a function"), this)
    | None => (Return this, this)
    end.

(** [castToThread].  [query] is [this] again, so the copies of the common
    values assign each member to itself. *)
Definition castToThread : method t t :=
  fun this =>
    let orderFilter := order this in
    let this := set_excludedTags (excludedTags this) this in
    let this := set_newerThan (newerThan this) this in
    let this := set_olderThan (olderThan this) this in
    let this := set_onlyTitles true this in
    let this := set_keywords (keywords this) this in
    let orderFilter :=
      if String.eqb orderFilter "likes" || String.eqb orderFilter "title"
      then "relevance" else orderFilter in
    let this := set_order orderFilter this in
    (Return this, this).

(** The object literal [{}] and the read of a member of it. *)
Definition object_literal : Type := list (string * TQueryInterface).
Definition empty_object : object_literal := [].
Definition read_itype (o : object_literal) : option TQueryInterface :=
  snd <$> List.find (fun m => String.eqb (fst m) "itype") o.

(** [cast<T>()].  The type argument, here the name [T] of its class, does
    not exist at run time; the branch is taken on the [itype] of the fresh
    object [{}]. *)
Definition cast (T : TQueryInterface) : method t t :=
  fun this =>
    let query := empty_object in
    if bool_decide (read_itype query = Some "LatestSearchQuery")
    then castToLatest this
    else if bool_decide (read_itype query = Some "ThreadSearchQuery")
    then castToThread this
    else (Return this, this).

Section Methods.

Context (validateSync : t -> list ValidationError).

Definition validate (this : t) : bool :=
  (length (validateSync this) =? 0)%nat.

(** [createURL].  The object that [cast] hands back is an instance of
    this class, so [query.createURL()] is this method again; [stack]
    counts the frames left before the run time gives up. *)
Fixpoint createURL (stack : nat) : method t URL :=
  fun this =>
    match stack with
    | O => (Throw (RangeError "Maximum call stack size exceeded"), this)
    | S stack' =>
        if negb (validate this)
        then (Throw (Error ("Invalid query: "
                            +:+ String.concat line_feed (validateSync this))), this)
        else
          let casted :=
            match selectSearchType this with
            | latest => cast "LatestSearchQuery" this
            | thread => cast "ThreadSearchQuery" this
            end in
          match casted with
          | (Return query, this') => createURL stack' this'
          | (Throw e, this') => (Throw e, this')
          | (Pending, this') => (Pending, this')
          end
    end.

End Methods.

End HandiworkSearchQuery.

(** ** The search: [fetchResultURLs] *)

Section Search.

Context (P : Platform).

(** [extractLinkFromResult] on one result body: [.attr("href")] is
    undefined where the title link is missing, and [.trim()] then throws. *)
Definition extractLinkFromResult (selector : option string) : outcome string :=
  match selector with
  | None => Throw (TypeError "Cannot read properties of undefined (reading 'trim')")
  | Some href =>
      let partialLink := trim href in
      match new_URL P partialLink (F95_BASE_URL P) with
      | Some url => Return url
      | None => Throw (TypeError "Invalid URL")
      end
  end.

(** [.map(...).get()] over the selected result bodies. *)
Fixpoint extract_links (results : list (option string)) : outcome (list string) :=
  match results with
  | [] => Return []
  | el :: rest =>
      match extractLinkFromResult el with
      | Return url =>
          match extract_links rest with
          | Return urls => Return (url :: urls)
          | Throw e => Throw e
          | Pending => Pending
          end
      | Throw e => Throw e
      | Pending => Pending
      end
  end.

(** [fetchResultURLs(url, limit = 30)]; [limit] is [None] when the caller
    leaves it out. *)
Definition fetchResultURLs (url : string) (limit : option Z)
  : outcome (list string) :=
  let limit := default 30 limit in
  let html := fetchHTML P url in
  match html with
  | success value =>
      let results := cheerio_results P value in
      extract_links (Array_slice 0 limit results)
  | failure e => Throw e
  end.

End Search.

(** ** A platform to run the pipeline on

    A small site served from tables: the first page of the thread, the
    answer to the pagination request, the answer to each page request and
    the posts each page body parses to. *)

Definition digit_of (c : ascii) : option Z :=
  let n := N_of_ascii c in
  if ((48 <=? n) && (n <=? 57))%N then Some (Z.of_N (n - 48)) else None.

Fixpoint read_digits (acc : option Z) (s : string) : option Z :=
  match s with
  | EmptyString => acc
  | String c s' =>
      match digit_of c with
      | Some d => read_digits (Some (10 * default 0 acc + d)) s'
      | None => acc
      end
  end.

(** [parseInt] on decimal numerals: leading white space and a sign are
    passed over, the digits are read up to the first other character, and
    with no digit the answer is [NaN]. *)
Definition decimal_parseInt (s : option string) : option Z :=
  match trimStart <$> s with
  | None => None
  | Some (String "-" s') => Z.opp <$> read_digits None s'
  | Some (String "+" s') => read_digits None s'
  | Some s' => read_digits None s'
  end.

Definition table_lookup {V} (missing : V) (table : list (string * V)) (key : string) : V :=
  match List.find (fun entry => String.eqb (fst entry) key) table with
  | Some entry => snd entry
  | None => missing
  end.

(** A page request that is answered with a page. *)
Definition html_response (body : string) : Result error string :=
  success body.

Definition site_base : string := "https://f95zone.to/".

Definition site_rating : TJsonLD :=
  JObject [("aggregateRating",
            JObject [("ratingValue", JString "4");
                     ("bestRating", JString "5");
                     ("ratingCount", JString "12")])].

Definition site (thread_id : Z)
    (pagination : Result error AxiosResponse)
    (page_replies : list (Result error string))
    (parsed : list (string * outcome (list Post)))
    (results : list (option string))
    (order : list nat) : Platform :=
  {| F95_BASE_URL := site_base;
     F95_POSTS_NUMBER := "https://f95zone.to/account/dpp-update";
     session_token := "token";
     new_URL := fun rel base => Some (base +:+ rel);
     fetchHTML :=
       table_lookup (failure (GenericAxiosError 1 "Request failed with status code 404"))
         ((site_base +:+ pretty thread_id, html_response "first page")
          :: (site_base +:+ "search", html_response "results")
          :: imap (fun i reply =>
                     (site_base +:+ "page-" +:+ pretty (Z.of_nat i + 1), reply))
                  page_replies);
     fetchPOSTResponse := fun _ _ => pagination;
     cheerio_thread := fun _ =>
       {| dom_creation := Some "2021-03-04T10:00:00+0000";
          dom_ownerID := Some "1407";
          dom_tags := ["2dcg"; "fantasy"];
          dom_prefixes := ["Ren'Py"];
          dom_title := "A thread";
          dom_lastPage := pretty (Z.of_nat (length page_replies));
          dom_JSONLD := Return site_rating |};
     cheerio_results := fun _ => results;
     parsePostsInPage := table_lookup (Return []) parsed;
     parseInt := decimal_parseInt;
     parseFloat := fun s => (fun z => (z, 1)) <$> decimal_parseInt s;
     new_Date := fun _ => Some 1614852000000;
     completion_order := order |}.

Definition post (id : Z) (message : string) : Post :=
  {| post_id := id; post_number := 1; post_published := Some 1614852000000;
     post_lastEdit := None; post_owner := {| user_id := Some 1407 |};
     post_bookmarked := false; post_message := message |}.

Definition accepted : Result error AxiosResponse :=
  success {| data := "{}"; headers := [("content-type", "application/json")] |}.

Definition timeout_error : error :=
  GenericAxiosError 1 "Error timeout of 30000ms exceeded occurred while trying to fetch https://f95zone.to/page-2".

Definition reset_error : error :=
  GenericAxiosError 1 "Error socket hang up occurred while trying to fetch https://f95zone.to/page-3".

Definition parsed_pages : list (string * outcome (list Post)) :=
  [ ("page one", Return [post 103 "c"; post 101 "a"]);
    ("page two", Return [post 102 "b"; post 205 "e"]);
    ("page three", Return [post 204 "d"]) ].

(** Three pages that all load; the third settles first. *)
Definition site_three_pages : Platform :=
  site 42 accepted
    [html_response "page one"; html_response "page two"; html_response "page three"]
    parsed_pages [] [2; 0; 1]%nat.

(** The second and the third page fail; the third settles first. *)
Definition site_two_failures : Platform :=
  site 42 accepted
    [html_response "page one"; failure timeout_error; failure reset_error]
    parsed_pages [] [2; 0; 1]%nat.

(** The first page of posts loads and cannot be parsed; the second
    fails to load. *)
Definition unreadable_post : error :=
  TypeError "Cannot read properties of undefined (reading 'replace')".

Definition site_unreadable_page : Platform :=
  site 42 accepted
    [html_response "page one"; failure timeout_error]
    [ ("page one", Throw unreadable_post) ] [] [1; 0]%nat.

(** The pagination request is refused. *)
Definition site_no_session : Platform :=
  site 42 (failure (GenericAxiosError 1 "Request failed with status code 403"))
    [html_response "page one"] parsed_pages [] [0]%nat.

(** Two pages that both show the post 7. *)
Definition site_repeated_post : Platform :=
  site 42 accepted
    [html_response "page one"; html_response "page two"]
    [ ("page one", Return [post 7 "seen on page one"]);
      ("page two", Return [post 7 "seen on page two"]) ]
    [] [1; 0]%nat.

(** A search page with three results. *)
Definition site_search : Platform :=
  site 42 accepted [] []
    [Some "  threads/a-game.101/ "; Some "threads/b-game.102/"; Some "threads/c-game.103/"]
    [].

(** A search page with no result. *)
Definition site_empty_search : Platform :=
  site 42 accepted [] [] [] [].

(** The query of the latest listing that the documentation of the class
    gives as its default. *)
Definition games_by_date : SearchQuery.t :=
  {| SearchQuery.category := "games"; SearchQuery.tags := [];
     SearchQuery.prefixes := []; SearchQuery.sort := "date";
     SearchQuery.date := None; SearchQuery.page := 1 |}.

Definition latest_php : string := "https://f95zone.to/sam/latest_alpha/latest_data.php".

Definition six_tags : SearchQuery.t :=
  {| SearchQuery.category := "games"; SearchQuery.tags := [1; 2; 3; 4; 5; 6];
     SearchQuery.prefixes := []; SearchQuery.sort := "date";
     SearchQuery.date := Some 7; SearchQuery.page := 1 |}.

(** Unified queries: by keywords, by five tags, by six tags, by an order
    that one backend lacks, and with a page that is not valid. *)
Definition by_keywords : HandiworkSearchQuery.t :=
  HandiworkSearchQuery.set_keywords "elf" HandiworkSearchQuery.new.

Definition by_five_tags : HandiworkSearchQuery.t :=
  HandiworkSearchQuery.set_includedTags ["a"; "b"; "c"; "d"; "e"]
    HandiworkSearchQuery.new.

Definition by_six_tags : HandiworkSearchQuery.t :=
  HandiworkSearchQuery.set_includedTags ["a"; "b"; "c"; "d"; "e"; "f"]
    HandiworkSearchQuery.new.

Definition by_likes : HandiworkSearchQuery.t :=
  HandiworkSearchQuery.set_order "likes" by_keywords.

Definition page_zero : HandiworkSearchQuery.t :=
  HandiworkSearchQuery.set_page 0 HandiworkSearchQuery.new.

(** ** Words to state the properties in *)

Section PipelineWords.

Context (P : Platform).

(** What one page request comes to: the posts of the page, or the failure
    of its fetch or of its parse. *)
Definition page_result (response : Result error string) : outcome (list Post) :=
  match response with
  | success html => parsePostsInPage P html
  | failure e => Throw e
  end.

(** Every page before the one of index [k] was fetched and parsed. *)
Definition pages_before_succeed (responses : list (Result error string)) (k : nat) : Prop :=
  forall j response, (j < k)%nat -> responses !! j = Some response ->
    exists posts, page_result response = Return posts.

(** The first page of the thread was fetched and its data read; [doc] is
    what the selectors found on it. *)
Inductive first_page_read (this : Thread) (doc : ThreadDOM) : Prop :=
| first_page_read_intro (url html : string) (JSONLD : TJsonLD) (rating : TRating) :
    new_URL P (pretty (_id this)) (F95_BASE_URL P) = Some url ->
    fetchHTML P url = success html ->
    doc = cheerio_thread P html ->
    dom_JSONLD doc = Return JSONLD ->
    parseRating P JSONLD = Return rating ->
    first_page_read this doc.

(** The fetch of [this] fans out: the first page was read, the pagination
    request went through, one request per page was started, [responses]
    (by request index) is what the requests settle with, and they all
    settle, in whatever order. *)
Inductive fans_out (this : Thread) (responses : list (Result error string)) : Prop :=
| fans_out_intro (doc : ThreadDOM) (accepted : AxiosResponse) :
    first_page_read this doc ->
    fetchPOSTResponse P (F95_POSTS_NUMBER P) (params P this 100) = success accepted ->
    request_pages P (page_indices (parseInt P (Some (dom_lastPage doc))))
      = Return responses ->
    completion_order P ≡ₚ seq 0 (length responses) ->
    fans_out this responses.

(** The step of the pipeline that fails first, and what it fails with. *)
Inductive step_fails (this : Thread) (e : error) : Prop :=
| first_page_fetch_fails (url : string) :
    new_URL P (pretty (_id this)) (F95_BASE_URL P) = Some url ->
    fetchHTML P url = failure e ->
    step_fails this e
| pagination_request_fails (doc : ThreadDOM) :
    first_page_read this doc ->
    fetchPOSTResponse P (F95_POSTS_NUMBER P) (params P this 100) = failure e ->
    step_fails this e
| page_fetch_fails (responses : list (Result error string)) (k : nat) :
    fans_out this responses ->
    responses !! k = Some (failure e) ->
    pages_before_succeed responses k ->
    step_fails this e
| page_parse_fails (responses : list (Result error string)) (k : nat) (html : string) :
    fans_out this responses ->
    responses !! k = Some (success html) ->
    parsePostsInPage P html = Throw e ->
    pages_before_succeed responses k ->
    step_fails this e.

End PipelineWords.

(** The same platform with its page requests settling in another order. *)
Definition with_completion_order (order : list nat) (P : Platform) : Platform :=
  {| F95_BASE_URL := F95_BASE_URL P;
     F95_POSTS_NUMBER := F95_POSTS_NUMBER P;
     session_token := session_token P;
     new_URL := new_URL P;
     fetchHTML := fetchHTML P;
     fetchPOSTResponse := fetchPOSTResponse P;
     cheerio_thread := cheerio_thread P;
     cheerio_results := cheerio_results P;
     parsePostsInPage := parsePostsInPage P;
     parseInt := parseInt P;
     parseFloat := parseFloat P;
     new_Date := new_Date P;
     completion_order := order |}.

Definition ascending (posts : list Post) : Prop :=
  StronglySorted (fun a b => post_id a <= post_id b) posts.

Definition strictly_ascending (posts : list Post) : Prop :=
  StronglySorted (fun a b => post_id a < post_id b) posts.

(** A thrown value that reports an invalid query. *)
Definition is_invalid_query (e : error) : bool :=
  match e with
  | Error message => String.prefix "Invalid query" message
  | _ => false
  end.

Definition signals_invalid_query {A} (o : outcome A) : bool :=
  match o with
  | Throw e => is_invalid_query e
  | _ => false
  end.

Definition produces_url {A} (o : outcome A) : bool :=
  match o with
  | Return _ => true
  | _ => false
  end.

(** The link of the result body [el] resolves to [url] against the base
    URL of the platform. *)
Definition resolved (P : Platform) (el : option string) (url : string) : Prop :=
  exists href, el = Some href /\ new_URL P (trim href) (F95_BASE_URL P) = Some url.

Definition has_link (P : Platform) (el : option string) : Prop :=
  exists url, resolved P el url.

(** ** [network-helper.ts] *)

Module NetworkHelper.

(** [s] without the prefix [p], [None] when [s] does not start with it. *)
Fixpoint strip_prefix (p s : string) : option string :=
  match p, s with
  | EmptyString, _ => Some s
  | String a p', String b s' => if Ascii.eqb a b then strip_prefix p' s' else None
  | String _ _, EmptyString => None
  end.

(** [url.replace(/^(https?:)?\/\//, "https://")]: the expression matches
    at the start only, "https://", "http://" or "//". *)
Definition replace_scheme (url : string) : string :=
  match strip_prefix "https://" url with
  | Some rest => "https://" +:+ rest
  | None =>
      match strip_prefix "http://" url with
      | Some rest => "https://" +:+ rest
      | None =>
          match strip_prefix "//" url with
          | Some rest => "https://" +:+ rest
          | None => url
          end
      end
  end.

(** What an [axios.head] call settles with: a response, of which the code
    reads the status and the URL of its [config], or a rejection with the
    [code] of the thrown error, if it has one. *)
Record HeadResponse : Type := {
  status : Z;
  config_url : string
}.

Inductive head_settlement : Type :=
| head_fulfilled (response : HeadResponse)
| head_rejected (code : option string) (thrown : error).

(** [/\d/] *)
Definition is_digit (c : ascii) : bool :=
  let n := N_of_ascii c in ((48 <=? n) && (n <=? 57))%N.

(** [/4\d\d/.test(s)] *)
Fixpoint test_4dd (s : string) : bool :=
  match s with
  | EmptyString => false
  | String c rest =>
      (Ascii.eqb c "4"
       && match rest with
          | String d1 (String d2 _) => is_digit d1 && is_digit d2
          | _ => false
          end)
      || test_4dd rest
  end.



(** [e.message] *)
Definition message_of (e : error) : string :=
  match e with
  | GenericAxiosError _ message => message
  | UnexpectedResponseContentType _ message => message
  | TypeError message => message
  | RangeError message => message
  | Error message => message
  end.


(** [response[name]] where the code goes on to call a method of strings on
    it: the member of that name when the response has one that is a
    string, [None] for [undefined] and for a member of another kind.  Of
    the members of a response ([data], [status], [statusText], [headers],
    [config], [request]) the body is the string kept here. *)
Definition string_member (response : AxiosResponse) (name : string) : option string :=
  if String.eqb name "data" then Some (data response) else None.

Section Helpers.

(** The collaborators: [match_URL url] is [url.match(expression)] for the
    expression of [isStringAValidURL], the text matched and its groups, or
    [None] for [null]; [axios_head url timeout] and [axios_post url params
    jar] are the calls of the transport, and so is [axios_get url], which
    returns the response, throws what the transport rejects with or stays
    pending; [login_error_text] is the text of the error message that the
    login page shows. *)
Context (match_URL : string -> option (string * list (option string))).
Context (axios_get : option string -> outcome AxiosResponse).
Context (axios_head : string -> option Z -> head_settlement).
Context (axios_post : option string -> list (string * string) -> bool -> outcome AxiosResponse).
Context (login_error_text : string -> outcome string).
Context (F95_LOGIN_URL : string).

Definition isStringAValidURL (url : string) : outcome bool :=
  match match_URL url with
  | None => Throw (TypeError "Cannot read properties of null (reading 'length')")
  | Some (matched, groups) =>
      Return (0 <? Z.of_nat (length (Some matched :: groups)))
  end.

(** [enforceHttpsUrl]; [Return None] is the answer [null]. *)
Definition enforceHttpsUrl (url : string) : outcome (option string) :=
  match isStringAValidURL url with
  | Return true => Return (Some (replace_scheme url))
  | Return false => Return None
  | Throw e => Throw e
  | Pending => Pending
  end.

(** [fetchGETResponse]: the URL is secured before the [try], so what
    [enforceHttpsUrl] throws leaves the function; a rejection of the
    transport comes back as a failure. *)
Definition fetchGETResponse (url : string) : outcome (Result error AxiosResponse) :=
  match enforceHttpsUrl url with
  | Return secureURL =>
      match axios_get secureURL with
      | Return response => Return (success response)
      | Throw e =>
          let genericError :=
            GenericAxiosError 1
              ("Error " +:+ message_of e +:+ " occurred while trying to fetch "
               +:+ default "null" secureURL) in
          Return (failure genericError)
      | Pending => Pending
      end
  | Throw e => Throw e
  | Pending => Pending
  end.

(** [fetchHTML]: the content type is read off the response itself, as the
    member "content-type". *)
Definition fetchHTML (url : string) : outcome (Result error string) :=
  match fetchGETResponse url with
  | Return (success value) =>
      match string_member value "content-type" with
      | Some contentType =>
          let isHTML := includes "text/html" contentType in
          let unexpectedResponseError :=
            UnexpectedResponseContentType 2
              ("Expected HTML but received " +:+ contentType) in
          Return (if isHTML then success (data value)
                  else failure unexpectedResponseError)
      | None =>
          Throw (TypeError "Cannot read properties of undefined (reading 'includes')")
      end
  | Return (failure e) => Return (failure e)
  | Throw e => Throw e
  | Pending => Pending
  end.

Definition ERROR_CODES : list string := ["ENOTFOUND"; "ETIMEDOUT"].

Definition axiosUrlExists (url : string) : outcome bool :=
  match axios_head url (Some 3000) with
  | head_fulfilled response => Return (negb (test_4dd (pretty (status response))))
  | head_rejected code thrown =>
      match code with
      | Some code => if bool_decide (code ∈ ERROR_CODES) then Return false else Throw thrown
      | None => Throw thrown
      end
  end.

Definition getUrlRedirect (url : string) : outcome string :=
  match axios_head url None with
  | head_fulfilled response => Return (config_url response)
  | head_rejected _ thrown => Throw thrown
  end.

Definition urlExists (url : string) (checkRedirect : bool) : outcome bool :=
  match isStringAValidURL url with
  | Return true =>
      match axiosUrlExists url with
      | Return valid =>
          if valid && checkRedirect
          then match getUrlRedirect url with
               | Return redirectUrl => Return (String.eqb redirectUrl url)
               | Throw e => Throw e
               | Pending => Pending
               end
          else Return valid
      | Throw e => Throw e
      | Pending => Pending
      end
  | Return false => Return false
  | Throw e => Throw e
  | Pending => Pending
  end.




End Helpers.

End NetworkHelper.

(** ** The callers of the search *)

(** [url.toString()] *)
Definition URL_toString (url : URL) : string :=
  match searchParams url with
  | [] => href url
  | _ => href url +:+ "?" +:+ searchParams_toString (searchParams url)
  end.

Section SearchCallers.

Context (P : Platform).

Local Open Scope method_scope.

(** [fetchThreadHandiworkURLs(query, limit = 30)]; [createURL] is the
    method of that name of the class of [query]. *)
Definition fetchThreadHandiworkURLs {Q} (createURL : method Q URL)
    (limit : option Z) : method Q (list string) :=
  let limit := default 30 limit in
  url <- createURL ;;
  lift (fetchResultURLs P (URL_toString url) (Some limit)).

(** [fetchHandiworkURLs(query, limit = 30)] of [fetch-handiwork.ts].  The
    query that [cast] hands back is the unified query itself, so the
    [createURL] that the thread search calls on it is the one of
    [HandiworkSearchQuery]; [fetchLatestHandiworkURLs] is the search of the
    latest listing. *)
Definition fetchHandiworkURLs
    (validateSync : HandiworkSearchQuery.t -> list ValidationError) (stack : nat)
    (fetchLatestHandiworkURLs : option Z -> method HandiworkSearchQuery.t (list string))
    (limit : option Z) : method HandiworkSearchQuery.t (list string) :=
  fun query =>
    let limit := default 30 limit in
    let searchType := HandiworkSearchQuery.selectSearchType query in
    match searchType with
    | latest =>
        (castedQuery <- HandiworkSearchQuery.cast "LatestSearchQuery" ;;
         fetchLatestHandiworkURLs (Some limit)) query
    | thread =>
        (castedQuery <- HandiworkSearchQuery.cast "ThreadSearchQuery" ;;
         fetchThreadHandiworkURLs
           (HandiworkSearchQuery.createURL validateSync stack) (Some limit)) query
    end.

End SearchCallers.
(** ** [classes/handiwork/basic.ts] *)

From stdpp Require Import gmap.

Local Open Scope Z_scope.

Module Basic.

Section Objects.

(** [V] is what a property can hold. *)
Context {V : Type}.

(** An object: the map of its own properties, and the names that its
    prototype chain answers to.  The chain holds the methods of the class
    and of [Object], which are data properties that can be written over,
    and the accessor [__proto__] of [Object.prototype]. *)
Record object : Type := {
  own : gmap string V;
  inherited : gset string
}.

(** What the setter of [__proto__] makes of the prototype chain when it is
    given [val]: the names the new chain answers to.  For a value that is
    neither an object nor [null] the setter does nothing and the names are
    the ones before. *)
Context (setPrototypeOf : V -> gset string -> gset string).

(** [key in this] *)
Definition has_property (this : object) (key : string) : Prop :=
  is_Some (own this !! key) \/ key ∈ inherited this.

#[local] Instance has_property_dec this key : Decision (has_property this key).
Proof. unfold has_property. apply _. Defined.

(** [this[key] = val].  The value becomes an own property, except under
    the key [__proto__] when the object has no own property of that name
    and inherits the accessor: then the assignment goes to the setter. *)
Definition assign (this : object) (key : string) (val : V) : object :=
  if decide (key = "__proto__" /\ own this !! key = None /\ key ∈ inherited this)
  then {| own := own this; inherited := setPrototypeOf val (inherited this) |}
  else {| own := <[key := val]> (own this); inherited := inherited this |}.

(** The assignments, entry after entry. *)
Definition assign_entries (entries : list (string * V)) (this : object) : object :=
  foldl (fun this entry => assign this entry.1 entry.2) this entries.

(** [cast(src)]: the entries of [src] are filtered first, on the object
    as it is then, and those whose key is in [this] are then written to
    [this]. *)
Definition cast (src : gmap string V) (this : object) : object :=
  assign_entries
    (filter (fun entry => has_property this entry.1) (map_to_list src))
    this.

(** [new Basic(init)]: [Object.assign(this, init)] over the defaults. *)
Definition new (defaults : object) (init : gmap string V) : object :=
  assign_entries (map_to_list init) defaults.

End Objects.

Arguments object V : clear implicits.

End Basic.

(** ** Strings of the run time *)

Module Text.

(** [s.indexOf(searchString)] *)
Definition indexOf (searchString s : string) : Z :=
  match String.index 0 searchString s with
  | Some n => Z.of_nat n
  | None => -1
  end.

(** [s.lastIndexOf(c)] for a string [c] of one character. *)
Fixpoint last_index (c : ascii) (s : string) : option nat :=
  match s with
  | EmptyString => None
  | String a rest =>
      match last_index c rest with
      | Some n => Some (S n)
      | None => if Ascii.eqb a c then Some 0%nat else None
      end
  end.

Definition lastIndexOf (c : ascii) (s : string) : Z :=
  match last_index c s with
  | Some n => Z.of_nat n
  | None => -1
  end.

(** [s.substring(indexStart, indexEnd)]: both ends are brought into the
    string, and swapped when the first is the greater. *)
Definition substring (s : string) (indexStart indexEnd : Z) : string :=
  let len := Z.of_nat (String.length s) in
  let first := Z.min (Z.max indexStart 0) len in
  let last := Z.min (Z.max indexEnd 0) len in
  String.substring (Z.to_nat (Z.min first last))
    (Z.to_nat (Z.max first last - Z.min first last)) s.

(** [s.substring(indexStart)] *)
Definition substring_from (s : string) (indexStart : Z) : string :=
  substring s indexStart (Z.of_nat (String.length s)).

(** [s.replace(pattern, replacement)] for a string pattern: the first
    occurrence only. *)
Definition replace_first (pattern replacement s : string) : string :=
  match String.index 0 pattern s with
  | Some n =>
      String.substring 0 n s +:+ replacement
      +:+ String.substring (n + String.length pattern) (String.length s) s
  | None => s
  end.

(** [s.replace(/c/g, r)] for one character [c]. *)
Fixpoint replace_all (c r : ascii) (s : string) : string :=
  match s with
  | EmptyString => EmptyString
  | String a rest =>
      String (if Ascii.eqb a c then r else a) (replace_all c r rest)
  end.

(** [s.split(c)] for a separator of one character: the pieces between
    the separators, one more than there are separators. *)
Fixpoint split (c : ascii) (s : string) : list string :=
  match s with
  | EmptyString => [EmptyString]
  | String a rest =>
      match split c rest with
      | piece :: pieces =>
          if Ascii.eqb a c then EmptyString :: piece :: pieces
          else String a piece :: pieces
      | [] => [String a EmptyString]
      end
  end.

(** The character [c] occurs in [s]. *)
Fixpoint occurs (c : ascii) (s : string) : bool :=
  match s with
  | EmptyString => false
  | String a rest => Ascii.eqb a c || occurs c rest
  end.

End Text.

(** ** [scraper.ts] *)

Module Scraper.

Record TPrefixes : Type := {
  engine : option string;
  status : option string;
  mod_ : bool
}.

(** The dictionary [parsedDict] that [parseMainPostText] returns.  A key
    the code does not set is [None]; [LastUpdate] is always set, and [None]
    stands for the [null] it is set to when no valid date is found.
    [Various] is the object [data]: its keys are upper-case texts of the
    post, kept apart from the members every object inherits. *)
Record TParsedInfos : Type := {
  Censored : option bool;
  LastUpdate : option Date;
  SupportedOS : option (list string);
  Language : option string;
  Various : gmap string string
}.

Section Functions.

(** [engines] and [statuses] are the values of [shared.engines] and of
    [shared.statuses]; [toUpperCase] is the method of strings of that
    name; [isValid] says whether [DateTime.fromISO] reads a string as a
    valid date, and [new_Date] is the date it stands for. *)
Context (engines statuses : list string).
Context (toUpperCase : string -> string).
Context (isValid : string -> bool).
Context (new_Date : string -> Date).

Definition toUpperCaseArray (a : list string) : list string :=
  let toUpper := fun s => toUpperCase s in
  map toUpper a.

Definition isEngine (prefix : string) : bool :=
  bool_decide (toUpperCase prefix ∈ toUpperCaseArray engines).

Definition isStatus (prefix : string) : bool :=
  bool_decide (toUpperCase prefix ∈ toUpperCaseArray statuses).

Definition isMod (prefix : string) : bool :=
  let modPrefixes := ["MOD"; "CHEAT MOD"] in
  bool_decide (toUpperCase prefix ∈ modPrefixes).

(** The text of a prefix element without its white space and square
    brackets. *)
Definition prefix_text (text : string) : string :=
  let prefix := trim text in
  Text.replace_first "]" "" (Text.replace_first "[" "" prefix).

(** The callback [parseGamePrefix] of the loop over the prefix elements;
    [text] is the text of the element. *)
Definition parseGamePrefix (found : TPrefixes) (text : string) : TPrefixes :=
  let prefix := prefix_text text in
  if isEngine prefix
  then {| engine := Some prefix; status := status found; mod_ := mod_ found |}
  else if isStatus prefix
  then {| engine := engine found; status := Some prefix; mod_ := mod_ found |}
  else if isMod prefix
  then {| engine := engine found; status := status found; mod_ := true |}
  else found.

(** [parseGamePrefixes], on the texts of the prefix elements of the title. *)
Definition parseGamePrefixes (prefixeElements : list string) : TPrefixes :=
  let found :=
    foldl parseGamePrefix {| engine := None; status := None; mod_ := false |}
      prefixeElements in
  {| engine := engine found;
     status := Some (default "Ongoing" (status found));
     mod_ := mod_ found |}.

Definition getOverview (text : string) (is_mod : bool) : string :=
  let overviewEndIndex :=
    if is_mod then Text.indexOf "Updated" text else Text.indexOf "Thread Updated" text in
  trim (Text.replace_first ("Overview:" +:+ line_feed) ""
          (Text.substring text 0 overviewEndIndex)).

(** One turn of the loop over the lines of the post.  A line with a colon
    has at least two pieces, so the second is always there. *)
Definition parse_line (data : gmap string string) (line : string) : gmap string string :=
  if negb (includes ":" line) then data
  else
    let splitted := Text.split ":" line in
    let key :=
      Text.replace_all " " "_" (toUpperCase (trim (default "" (splitted !! 0%nat)))) in
    let value := trim (default "" (splitted !! 1%nat)) in
    if negb (String.eqb value "") then <[key := value]> data else data.

(** [data.KEY] where the code tests it: a string that is there and not
    empty. *)
Definition truthy_member (data : gmap string string) (key : string) : option string :=
  match data !! key with
  | Some (String c rest) => Some (String c rest)
  | _ => None
  end.

(** [data.KEY && DateTime.fromISO(data.KEY).isValid] *)
Definition valid_member (data : gmap string string) (key : string) : option string :=
  match truthy_member data key with
  | Some value => if isValid value then Some value else None
  | None => None
  end.

Definition parseMainPostText (text : string) : TParsedInfos :=
  let splittedText := Text.split (ascii_of_N 10) text in
  let data := foldl parse_line ∅ splittedText in
  let '(censored, data) :=
    match truthy_member data "CENSORED" with
    | Some value =>
        (Some (if String.eqb (toUpperCase value) "NO" then false else true),
         delete "CENSORED" data)
    | None => (None, data)
    end in
  let '(lastUpdate, data) :=
    match valid_member data "UPDATED" with
    | Some value => (Some (new_Date value), delete "UPDATED" data)
    | None =>
        match valid_member data "THREAD_UPDATED" with
        | Some value => (Some (new_Date value), delete "THREAD_UPDATED" data)
        | None => (None, data)
        end
    end in
  let '(listOS, data) :=
    match truthy_member data "OS" with
    | Some value => (Some (map trim (Text.split "," value)), delete "OS" data)
    | None => (None, data)
    end in
  let '(language, data) :=
    match truthy_member data "LANGUAGE" with
    | Some value => (Some value, delete "LANGUAGE" data)
    | None => (None, data)
    end in
  {| Censored := censored; LastUpdate := lastUpdate; SupportedOS := listOS;
     Language := language; Various := data |}.

End Functions.

End Scraper.

(** ** [classes/mapping/post.ts] *)

Module PostMethods.

Section Methods.

(** [isLogged] is [shared.isLogged] and [POSTS] is [urls.POSTS];
    [UserNotLogged] and [InvalidID] are the error classes of
    [classes/errors.ts], with the messages [USER_NOT_LOGGED] and
    [INVALID_POST_ID] they are built with.  [elaborateResponse] is the
    private method of that name: it looks the post up in a page and fills
    the fields of the receiver from it. *)
Context (P : Platform).
Context (isLogged : bool) (POSTS : string).
Context (UserNotLogged InvalidID : string -> error).
Context (USER_NOT_LOGGED INVALID_POST_ID : string).
Context (elaborateResponse : string -> method Post unit).

(** [fetch(html?)]; an [html] that is left out is [None], and the empty
    string is as falsy as that. *)
Definition fetch (html : option string) : method Post unit :=
  fun this =>
    if negb isLogged then (Throw (UserNotLogged USER_NOT_LOGGED), this)
    else if (post_id this =? 0) || (post_id this <? 1)
    then (Throw (InvalidID INVALID_POST_ID), this)
    else
      ((match html with
        | Some (String c rest) => elaborateResponse (String c rest)
        | _ => ret tt
        end ;;;
        fun this =>
          match new_URL P (pretty (post_id this)) POSTS with
          | None => (Throw (TypeError "Invalid URL"), this)
          | Some url =>
              match fetchHTML P url with
              | success value => elaborateResponse value this
              | failure e => (Throw e, this)
              end
          end)%method) this.

End Methods.

End PostMethods.

(** ** [fetch-data/fetch-platform-data.ts] *)

Module PlatformData.

(** The text that [parseLatestPlatformHTML] hands to [JSON.parse]: the
    text of the script from its first opening brace to its last closing
    brace. *)
Definition parsedText (unparsedText : string) : string :=
  let startIndex := Text.indexOf "{" unparsedText in
  let endIndex := Text.lastIndexOf "}" unparsedText in
  Text.substring unparsedText startIndex (endIndex + 1).

Section Functions.

(** [script_html] is the text of the script of the page that holds the
    data of the platform, [None] when the page has no such script;
    [JSON_parse] is the parser of the run time. *)
Context {ILatestResource : Type}.
Context (script_html : string -> option string).
Context (JSON_parse : string -> outcome ILatestResource).

Definition parseLatestPlatformHTML (html : string) : outcome ILatestResource :=
  match script_html html with
  | None => Throw (TypeError "Cannot read property 'trim' of null")
  | Some text =>
      let unparsedText := trim text in
      JSON_parse (parsedText unparsedText)
  end.

End Functions.

End PlatformData.

(** ** More sites *)

(** A thread whose first page shows no page count above zero. *)
Definition site_no_pages : Platform :=
  site 42 accepted [] parsed_pages [] [3; 1]%nat.

(** ** Doubles for the transport of the URL checks *)

(** Every string passes for a URL; the match has two groups. *)
Definition any_url_matches (url : string) : option (string * list (option string)) :=
  Some (url, [None; None]).

(** A server that answers every [HEAD] with the given status, behind
    [axios] with its default [validateStatus]: a status from 200 to 299
    fulfils the request, any other rejects it with an error that has no
    [code]. *)
Definition head_answers (code : Z) (url : string) (timeout : option Z)
  : NetworkHelper.head_settlement :=
  if (200 <=? code) && (code <? 300)
  then NetworkHelper.head_fulfilled
         {| NetworkHelper.status := code; NetworkHelper.config_url := url |}
  else NetworkHelper.head_rejected None
         (Error ("Request failed with status code " +:+ pretty code)).

(** A server that answers every [GET] with a page, and one that cannot be
    reached. *)
Definition get_answers (url : option string) : outcome AxiosResponse :=
  Return {| data := "<html></html>";
            headers := [("content-type", "text/html; charset=utf-8")] |}.

Definition get_unreachable (url : option string) : outcome AxiosResponse :=
  Throw (Error "getaddrinfo ENOTFOUND f95zone.to").




(** A unified query with a lower date bound. *)
Definition since_march : HandiworkSearchQuery.t :=
  HandiworkSearchQuery.set_newerThan (Some (Some 1614556800000))
    (HandiworkSearchQuery.set_order "replies" HandiworkSearchQuery.new).

(** A search page whose second result has no title link. *)
Definition site_broken_result : Platform :=
  site 42 accepted [] []
    [Some "threads/a-game.101/"; None; Some "threads/c-game.103/"] [].

(** A search of the latest listing that finds nothing. *)
Definition no_latest_results (limit : option Z)
  : method HandiworkSearchQuery.t (list string) :=
  ret [].

(** ** Objects of [Basic] *)

(** What the objects inherit, a handiwork with three of its fields, an
    update, and an update that was read from a text and has a property
    named [__proto__].  The values are strings, which the setter of
    [__proto__] passes over. *)
Definition basic_methods : gset string :=
  {[ "cast"; "constructor"; "toString"; "hasOwnProperty"; "__proto__" ]}.

Definition a_game : Basic.object string :=
  {| Basic.own :=
       {[ "name" := "A game"; "cover" := "";
          "url" := "https://f95zone.to/threads/1/" ]};
     Basic.inherited := basic_methods |}.

Definition an_update : gmap string string :=
  {[ "name" := "A game, remastered"; "engine" := "Unity" ]}.

Definition an_update_from_text : gmap string string :=
  {[ "name" := "A game, remastered"; "__proto__" := "none" ]}.

Definition string_to_prototype (val : string) (chain : gset string) : gset string :=
  chain.

(** ** A thread to scrape *)

(** [toUpperCase] on the letters of ASCII. *)
Fixpoint upper (s : string) : string :=
  match s with
  | EmptyString => EmptyString
  | String c rest =>
      let n := N_of_ascii c in
      String (if ((97 <=? n) && (n <=? 122))%N then ascii_of_N (n - 32) else c)
             (upper rest)
  end.

Definition known_engines : list string := ["Ren'Py"; "Unity"; "RPGM"].
Definition known_statuses : list string := ["Completed"; "Onhold"; "Abandoned"].

Definition post_text : string :=
  "Overview:" +:+ line_feed +:+ "A game about a game." +:+ line_feed
  +:+ "Thread Updated: 2021-03-04" +:+ line_feed
  +:+ "Censored: No" +:+ line_feed
  +:+ "OS: Windows, Linux" +:+ line_feed
  +:+ "Language: English" +:+ line_feed
  +:+ "Store: https://store.example/game" +:+ line_feed
  +:+ "Version:" +:+ line_feed.

(** A post that is filled in by keeping the page as its message. *)
Definition keep_page (html : string) : method Post unit :=
  assign (fun this =>
    {| post_id := post_id this; post_number := post_number this;
       post_published := post_published this; post_lastEdit := post_lastEdit this;
       post_owner := post_owner this; post_bookmarked := post_bookmarked this;
       post_message := html |}).

Definition not_logged : string -> error :=
  fun message => Error ("UserNotLogged: " +:+ message).

Definition invalid_id : string -> error :=
  fun message => Error ("InvalidID: " +:+ message).

(** * Properties of the run time *)

Section ArraySort.

Context {A : Type} (comparefn : A -> A -> Z).

Lemma sorted_insert_Permutation (x : A) (l : list A) :
  sorted_insert comparefn x l ≡ₚ x :: l.
Proof.
  induction l as [|y l IH]; simpl; [done|].
  destruct (0 <? comparefn x y); [|done].
  rewrite IH. apply Permutation_swap.
Qed.

Lemma Array_sort_Permutation (l : list A) : Array_sort comparefn l ≡ₚ l.
Proof.
  induction l as [|x l IH]; simpl; [done|].
  unfold Array_sort in *. simpl.
  rewrite sorted_insert_Permutation. by rewrite IH.
Qed.

Lemma Array_sort_length (l : list A) :
  length (Array_sort comparefn l) = length l.
Proof. apply Permutation_length, Array_sort_Permutation. Qed.

(** The comparator agrees with an order [R]: a positive answer says that
    the second argument comes first, any other answer that the first
    does. *)
Context (R : relation A).
Context (R_trans : Transitive R).
Context (positive_swaps : forall a b, 0 < comparefn a b -> R b a).
Context (other_keeps : forall a b, comparefn a b <= 0 -> R a b).

Lemma sorted_insert_StronglySorted (x : A) (l : list A) :
  StronglySorted R l -> StronglySorted R (sorted_insert comparefn x l).
Proof.
  induction 1 as [|y l Hl IH Hy]; simpl.
  - repeat constructor.
  - destruct (Z.ltb_spec 0 (comparefn x y)) as [Hpos|Hle].
    + constructor; [done|].
      rewrite sorted_insert_Permutation.
      constructor; [by apply positive_swaps | done].
    + assert (R x y) as Hxy by (by apply other_keeps).
      constructor; [by constructor|].
      constructor; [done|].
      eapply Forall_impl; [exact Hy|]. intros z Hz. by transitivity y.
Qed.

Lemma Array_sort_StronglySorted (l : list A) :
  StronglySorted R (Array_sort comparefn l).
Proof.
  induction l as [|x l IH]; [constructor|].
  by apply sorted_insert_StronglySorted.
Qed.

End ArraySort.

Section ArraySlice.

Context {A : Type}.

Lemma Array_slice_from_start (final : Z) (l : list A) :
  0 <= final -> Array_slice 0 final l = take (Z.to_nat final) l.
Proof.
  intros Hfinal. unfold Array_slice.
  replace (final <? 0) with false by (symmetry; apply Z.ltb_ge; lia).
  replace (0 <? 0) with false by done.
  rewrite (Z.min_l 0) by lia. rewrite Z.sub_0_r.
  change (Z.to_nat 0) with 0%nat. rewrite drop_0.
  destruct (Z.min_spec final (Z.of_nat (length l))) as [[? ->]|[? ->]]; [done|].
  rewrite Nat2Z.id. rewrite take_ge by lia. by rewrite take_ge by lia.
Qed.

Lemma Array_slice_length_le (final : Z) (l : list A) :
  0 <= final -> Z.of_nat (length (Array_slice 0 final l)) <= final.
Proof.
  intros Hfinal. rewrite Array_slice_from_start by done.
  rewrite length_take. lia.
Qed.

End ArraySlice.

Section PromiseAll.

Context {R : Type}.

Lemma settle_length (promises : list R) values i :
  length (settle promises values i) = length values.
Proof. unfold settle. destruct (promises !! i); [apply length_insert|done]. Qed.

(** After the settlements of [order], slot [j] holds the value of promise
    [j] if [j] has settled, and what it held before otherwise. *)
Lemma settle_all_lookup (promises : list R) order values j :
  length values = length promises ->
  foldl (settle promises) values order !! j =
    if decide (j ∈ order) then Some <$> promises !! j else values !! j.
Proof.
  revert values. induction order as [|i order IH]; intros values Hlen.
  - simpl. destruct (decide (j ∈ [])) as [Hin|_]; [|done].
    by apply elem_of_nil in Hin.
  - cbn [foldl]. rewrite IH by (by rewrite settle_length).
    destruct (decide (j ∈ order)) as [Hin|Hnin].
    + by rewrite decide_True by (by right).
    + unfold settle. destruct (decide (j = i)) as [->|Hne].
      * rewrite decide_True by left.
        destruct (promises !! i) as [r|] eqn:Hi; simpl.
        -- apply list_lookup_insert_eq. rewrite Hlen.
           by eapply lookup_lt_Some.
        -- apply lookup_ge_None. rewrite Hlen. by apply lookup_ge_None.
      * rewrite decide_False by (intros [->|?]%elem_of_cons; done).
        destruct (promises !! i); [|done].
        by rewrite list_lookup_insert_ne.
Qed.

(** Whatever the order in which the promises settle, once all of them have
    settled the values come back in request order. *)
Lemma Promise_all_request_order (promises : list R) (order : list nat) :
  (forall i, (i < length promises)%nat -> i ∈ order) ->
  Promise_all promises order = Return promises.
Proof.
  intros Hall. unfold Promise_all.
  assert (foldl (settle promises) (replicate (length promises) None) order
          = Some <$> promises) as ->.
  { apply list_eq. intros j.
    rewrite settle_all_lookup by apply length_replicate.
    rewrite list_lookup_fmap.
    destruct (decide (j ∈ order)) as [|Hnin]; [done|].
    destruct (decide (j < length promises)%nat) as [Hlt|Hge].
    - by destruct Hnin; apply Hall.
    - assert (promises !! j = None) as -> by (apply lookup_ge_None; lia).
      apply lookup_replicate_None. lia. }
  by rewrite (mapM_fmap_Some id Some promises).
Qed.

Lemma Promise_all_permutation (promises : list R) (order : list nat) :
  order ≡ₚ seq 0 (length promises) ->
  Promise_all promises order = Return promises.
Proof.
  intros Hperm. apply Promise_all_request_order. intros i Hi.
  rewrite Hperm. apply elem_of_seq. lia.
Qed.

End PromiseAll.

(** * The thread pipeline *)

Lemma compare_posts_positive (a b : Post) :
  0 < compare_posts a b -> post_id b <= post_id a.
Proof.
  unfold compare_posts.
  destruct (Z.ltb_spec (post_id b) (post_id a));
    destruct (Z.ltb_spec (post_id a) (post_id b)); lia.
Qed.

Lemma compare_posts_other (a b : Post) :
  compare_posts a b <= 0 -> post_id a <= post_id b.
Proof.
  unfold compare_posts.
  destruct (Z.ltb_spec (post_id b) (post_id a));
    destruct (Z.ltb_spec (post_id a) (post_id b)); lia.
Qed.

Lemma sort_posts_ascending (posts : list Post) :
  ascending (Array_sort compare_posts posts).
Proof.
  apply Array_sort_StronglySorted.
  - intros a b c Hab Hbc. lia.
  - apply compare_posts_positive.
  - apply compare_posts_other.
Qed.

Lemma ascending_distinct_strictly (posts : list Post) :
  ascending posts -> NoDup (post_id <$> posts) -> strictly_ascending posts.
Proof.
  induction 1 as [|a posts Hposts IH Ha]; intros Hnodup; [constructor|].
  rewrite fmap_cons in Hnodup. apply NoDup_cons in Hnodup as [Hfresh Hnodup].
  constructor; [by apply IH|].
  apply Forall_forall. intros b Hb.
  assert (post_id a <= post_id b) by (by eapply Forall_forall in Ha).
  assert (post_id a <> post_id b).
  { intros Heq. apply Hfresh. rewrite Heq. by apply list_elem_of_fmap_2. }
  lia.
Qed.

Section ThreadProperties.

Context (P : Platform).

Lemma params_same_id (t1 t2 : Thread) (n : Z) :
  _id t1 = _id t2 -> params P t1 n = params P t2 n.
Proof. unfold params. by intros ->. Qed.

Lemma scrape_pages_all responses pss acc :
  Forall2 (fun response posts => page_result P response = Return posts) responses pss ->
  scrape_pages P responses acc = Return (acc ++ concat pss).
Proof.
  intros Hall. revert acc.
  induction Hall as [|response posts responses pss Hpage _ IH]; intros acc; simpl.
  - by rewrite app_nil_r.
  - destruct response as [e|html]; simpl in Hpage; [done|].
    rewrite Hpage, IH. by rewrite app_assoc.
Qed.

Lemma scrape_pages_first_failure responses k response e acc :
  responses !! k = Some response ->
  page_result P response = Throw e ->
  pages_before_succeed P responses k ->
  scrape_pages P responses acc = Throw e.
Proof.
  revert k acc. induction responses as [|r0 responses IH]; intros k acc Hk He Hbefore.
  - done.
  - destruct k as [|k]; simpl in Hk.
    + injection Hk as ->. simpl. destruct response as [e'|html]; simpl in He.
      * by injection He as ->.
      * by rewrite He.
    + destruct (Hbefore 0%nat r0) as [posts Hposts]; [lia|done|].
      simpl. destruct r0 as [e'|html]; simpl in Hposts; [done|].
      rewrite Hposts. apply (IH k); [done..|].
      intros j r' Hj Hr'. apply (Hbefore (S j)); [lia|done].
Qed.

(** Once the pagination request went through and the page requests were
    started, [fetchPosts] is the scan of the responses in request order,
    whatever the order in which they settled. *)
Lemma fetchPosts_fan_out pages this responses accepted :
  fetchPOSTResponse P (F95_POSTS_NUMBER P) (params P this 100) = success accepted ->
  request_pages P (page_indices pages) = Return responses ->
  completion_order P ≡ₚ seq 0 (length responses) ->
  fetchPosts P pages this =
    match scrape_pages P responses [] with
    | Return fetchedPosts => (Return (Array_sort compare_posts fetchedPosts), this)
    | Throw e => (Throw e, this)
    | Pending => (Pending, this)
    end.
Proof.
  intros Hpost Hreq Hperm.
  unfold fetchPosts, bind, setMaximumPostsForPage, lift, ret.
  rewrite Hpost, Hreq, (Promise_all_permutation _ _ Hperm).
  by destruct (scrape_pages P responses []).
Qed.

Lemma fetchPosts_pagination_failure pages this e :
  fetchPOSTResponse P (F95_POSTS_NUMBER P) (params P this 100) = failure e ->
  fetchPosts P pages this = (Throw e, this).
Proof.
  intros Hpost. unfold fetchPosts, bind, setMaximumPostsForPage.
  by rewrite Hpost.
Qed.

(** After the first page was read, [fetch] is [fetchPosts] on a receiver
    that has its data and no posts yet. *)
Lemma fetch_first_page_read this doc :
  first_page_read P this doc ->
  exists this1,
    _id this1 = _id this /\ _posts this1 = _posts this /\
    fetch P this =
      match fetchPosts P (parseInt P (Some (dom_lastPage doc))) this1 with
      | (Return posts, this2) => (Return tt, set_posts posts this2)
      | (Throw e, this2) => (Throw e, this2)
      | (Pending, this2) => (Pending, this2)
      end.
Proof.
  intros [url html JSONLD rating Hurl Hhtml -> Hjson Hrating].
  eexists. split; [|split]; cycle 2.
  - unfold fetch. rewrite Hurl, Hhtml.
    unfold bind at 1. unfold lift at 1. rewrite Hjson.
    unfold bind, assign, lift. rewrite Hrating. reflexivity.
  - done.
  - done.
Qed.

Lemma fetch_fans_out this responses :
  fans_out P this responses ->
  exists this1,
    _posts this1 = _posts this /\
    fetch P this =
      match scrape_pages P responses [] with
      | Return fetchedPosts =>
          (Return tt, set_posts (Array_sort compare_posts fetchedPosts) this1)
      | Throw e => (Throw e, this1)
      | Pending => (Pending, this1)
      end.
Proof.
  intros [doc accepted Hread Hpost Hreq Hperm].
  destruct (fetch_first_page_read this doc Hread) as (this1 & Hid & Hposts & ->).
  exists this1. split; [done|].
  rewrite (fetchPosts_fan_out _ this1 responses accepted); [|by rewrite (params_same_id this1 this)|done..].
  by destruct (scrape_pages P responses []).
Qed.

Lemma fetch_first_failure this responses k response e :
  fans_out P this responses ->
  responses !! k = Some response ->
  page_result P response = Throw e ->
  pages_before_succeed P responses k ->
  fst (fetch P this) = Throw e /\ _posts (snd (fetch P this)) = _posts this.
Proof.
  intros Hfan Hk He Hbefore.
  destruct (fetch_fans_out this responses Hfan) as (this1 & Hposts & ->).
  by rewrite (scrape_pages_first_failure responses k response e []).
Qed.

Lemma fetch_all_pages this responses pss :
  fans_out P this responses ->
  Forall2 (fun response posts => page_result P response = Return posts) responses pss ->
  fst (fetch P this) = Return tt /\
  _posts (snd (fetch P this)) = Some (Array_sort compare_posts (concat pss)).
Proof.
  intros Hfan Hall.
  destruct (fetch_fans_out this responses Hfan) as (this1 & Hposts & ->).
  by rewrite (scrape_pages_all responses pss []).
Qed.

(** The responses are those of the pages of the indices, one for one and
    in their order. *)
Lemma request_pages_in_order indices responses :
  request_pages P indices = Return responses ->
  Forall2 (fun i response =>
             exists url,
               new_URL P ("page-" +:+ pretty i) (F95_BASE_URL P) = Some url /\
               response = fetchHTML P url)
          indices responses.
Proof.
  revert responses. induction indices as [|i indices IH]; intros responses; simpl.
  - intros [= <-]. constructor.
  - destruct (new_URL P _ _) as [url|] eqn:Hurl; [|done].
    destruct (request_pages P indices) as [rest| |]; [|done..].
    intros [= <-]. constructor; [by exists url|by apply IH].
Qed.

Lemma request_pages_length pages responses :
  request_pages P (page_indices pages) = Return responses ->
  Z.of_nat (length responses) = Z.max 0 (default 0 pages).
Proof.
  intros Hreq%request_pages_in_order%Forall2_length. rewrite <- Hreq.
  destruct pages as [n|]; simpl; [|done].
  rewrite length_seqZ. lia.
Qed.

(** The order in which the page requests settle does not show in what
    [fetch] comes to. *)
Lemma fetch_any_completion_order this responses order :
  fans_out P this responses ->
  order ≡ₚ seq 0 (length responses) ->
  fetch (with_completion_order order P) this = fetch P this.
Proof.
  intros [doc accepted [url html JSONLD rating Hurl Hhtml -> Hjson Hrating]
          Hpost Hreq Hperm] Horder.
  unfold fetch. cbn [F95_BASE_URL new_URL with_completion_order].
  rewrite Hurl.
  change (fetchHTML (with_completion_order order P) url) with (fetchHTML P url).
  rewrite Hhtml.
  change (cheerio_thread (with_completion_order order P) html)
    with (cheerio_thread P html).
  unfold bind at 1 11. unfold lift at 1 4. rewrite Hjson.
  unfold bind, assign, lift.
  change (parseRating (with_completion_order order P) JSONLD)
    with (parseRating P JSONLD).
  rewrite Hrating.
  cbn [parseInt new_Date with_completion_order].
  set (this1 := set_rating rating _).
  rewrite (fetchPosts_fan_out _ this1 responses accepted); [|done..].
  assert (fetchPosts (with_completion_order order P)
            (parseInt P (Some (dom_lastPage (cheerio_thread P html)))) this1
          = match scrape_pages P responses [] with
            | Return fetchedPosts => (Return (Array_sort compare_posts fetchedPosts), this1)
            | Throw e => (Throw e, this1)
            | Pending => (Pending, this1)
            end) as ->; [|done].
  unfold fetchPosts, bind, setMaximumPostsForPage, lift, ret.
  change (fetchPOSTResponse (with_completion_order order P)
            (F95_POSTS_NUMBER (with_completion_order order P))
            (params (with_completion_order order P) this1 100))
    with (fetchPOSTResponse P (F95_POSTS_NUMBER P) (params P this 100)).
  rewrite Hpost.
  change (request_pages (with_completion_order order P)) with (request_pages P).
  rewrite Hreq.
  cbn [completion_order with_completion_order].
  rewrite (Promise_all_permutation _ _ Horder).
  change (scrape_pages (with_completion_order order P)) with (scrape_pages P).
  by destruct (scrape_pages P responses []).
Qed.

End ThreadProperties.

(** ** Failures of the pipeline *)

(** [setMaximumPostsForPage] throws the failure of its request. *)
Lemma setMaximumPostsForPage_throws (P : Platform) (this : Thread) (n : Z) (e : error) :
  fetchPOSTResponse P (F95_POSTS_NUMBER P) (params P this n) = failure e ->
  setMaximumPostsForPage P n this = (Throw e, this).
Proof. intros Hpost. unfold setMaximumPostsForPage. by rewrite Hpost. Qed.

(** The fan-out of a concrete site, by running it. *)
Ltac run_fan_out :=
  eapply fans_out_intro;
  [ eapply first_page_read_intro; reflexivity
  | reflexivity
  | reflexivity
  | compute_done ].

(** C1, as it is stated, fails: the pages are scanned in request order
    and a page that loaded is parsed on the way, so when the first page
    cannot be parsed and the second fails to load, what [fetch] throws is
    the error of the parse, not the failure of the only page request that
    failed. *)
Lemma failed_parse_hides_failing_page :
  fans_out site_unreadable_page (new_Thread 42)
    [success "page one"; failure timeout_error] /\
  fst (fetch site_unreadable_page (new_Thread 42)) = Throw unreadable_post /\
  unreadable_post <> timeout_error.
Proof.
  split; [run_fan_out|]. split; [reflexivity|discriminate].
Qed.

(** C1, amended.  When the fetch of a thread fans out its page requests
    and the page of lowest request index among the failing ones failed to
    load with [e], every page before it having loaded and parsed, then
    whatever the order in which the requests settled, [fetch] fails with
    that very [e], and the posts of the thread are left as they were:
    undefined on a fresh thread, with no part of the pages in it. *)
Theorem fetch_surfaces_lowest_failing_page
    (P : Platform) (this : Thread) (responses : list (Result error string))
    (k : nat) (e : error) :
  fans_out P this responses ->
  responses !! k = Some (failure e) ->
  pages_before_succeed P responses k ->
  fst (fetch P this) = Throw e /\ _posts (snd (fetch P this)) = _posts this.
Proof.
  intros Hfan Hk Hbefore.
  by apply (fetch_first_failure P this responses k (failure e) e).
Qed.

(** Pages two and three fail, page three settles first: the failure of
    page two comes out. *)
Lemma fetch_surfaces_lowest_failing_page_witness :
  fst (fetch site_two_failures (new_Thread 42)) = Throw timeout_error /\
  _posts (snd (fetch site_two_failures (new_Thread 42))) = None.
Proof.
  apply (fetch_surfaces_lowest_failing_page site_two_failures (new_Thread 42)
           [success "page one"; failure timeout_error; failure reset_error]
           1 timeout_error).
  - run_fan_out.
  - reflexivity.
  - intros j response Hj Hlookup.
    destruct j as [|j]; [|lia].
    injection Hlookup as <-. eexists. reflexivity.
Defined.

(** C2, as it is stated, fails: two pages that show the same post give an
    assembled sequence that is not strictly ascending. *)
Lemma repeated_post_not_strictly_ascending :
  fans_out site_repeated_post (new_Thread 42)
    [success "page one"; success "page two"] /\
  _posts (snd (fetch site_repeated_post (new_Thread 42)))
    = Some [post 7 "seen on page one"; post 7 "seen on page two"] /\
  ~ strictly_ascending [post 7 "seen on page one"; post 7 "seen on page two"].
Proof.
  split; [run_fan_out|]. split; [reflexivity|].
  intros Hsorted. apply StronglySorted_inv in Hsorted as [_ Hhead].
  apply Forall_cons in Hhead as [Hlt _]. simpl in Hlt. lia.
Qed.

(** C2, amended.  When every page loads and parses, [fetch] succeeds and
    the posts of the thread are in ascending order of post ID, whatever
    the order in which the requests settled: no post is followed by one of
    smaller ID, and where the IDs of the parsed posts are pairwise distinct
    the order is strict. *)
Theorem fetch_posts_ascending
    (P : Platform) (this : Thread) (responses : list (Result error string))
    (pss : list (list Post)) :
  fans_out P this responses ->
  Forall2 (fun response posts => page_result P response = Return posts) responses pss ->
  exists posts,
    fst (fetch P this) = Return tt /\
    _posts (snd (fetch P this)) = Some posts /\
    ascending posts /\
    (NoDup (post_id <$> concat pss) -> strictly_ascending posts).
Proof.
  intros Hfan Hall.
  destruct (fetch_all_pages P this responses pss Hfan Hall) as [Hret Hposts].
  exists (Array_sort compare_posts (concat pss)).
  split; [done|]. split; [done|]. split; [apply sort_posts_ascending|].
  intros Hnodup. apply ascending_distinct_strictly; [apply sort_posts_ascending|].
  by rewrite (Array_sort_Permutation compare_posts (concat pss)).
Qed.

Lemma fetch_posts_ascending_witness :
  exists posts,
    fst (fetch site_three_pages (new_Thread 42)) = Return tt /\
    _posts (snd (fetch site_three_pages (new_Thread 42))) = Some posts /\
    ascending posts /\ strictly_ascending posts.
Proof.
  destruct (fetch_posts_ascending site_three_pages (new_Thread 42)
              [success "page one"; success "page two"; success "page three"]
              [[post 103 "c"; post 101 "a"]; [post 102 "b"; post 205 "e"];
               [post 204 "d"]])
    as (posts & Hret & Hposts & Hasc & Hstrict).
  - run_fan_out.
  - repeat constructor.
  - exists posts. repeat split; [done..|]. apply Hstrict. compute_done.
Defined.

(** C5, as it is stated, fails: the pagination step and the page scan
    leave by a throw inside the pipeline, not by a [Result] handed to
    their caller. *)
Lemma pipeline_steps_unwind :
  ~ never_unwinds (setMaximumPostsForPage site_no_session 100) /\
  ~ never_unwinds (fetchPosts site_two_failures (Some 3)).
Proof.
  split; intros Hnever; apply (Hnever (new_Thread 42)); eexists; reflexivity.
Qed.

(** C5, amended.  The failure of the step that fails first (the fetch of
    the first page, the pagination request, the fetch of a page, the parse
    of a page) leaves the entry point [fetch] as a thrown value that is the
    very value the step failed with. *)
Theorem fetch_throws_failure_unchanged (P : Platform) (this : Thread) (e : error) :
  step_fails P this e -> fst (fetch P this) = Throw e.
Proof.
  intros [url Hurl Hhtml | doc Hread Hpost | responses k Hfan Hk Hbefore
         | responses k html Hfan Hk Hparse Hbefore].
  - unfold fetch. by rewrite Hurl, Hhtml.
  - destruct (fetch_first_page_read P this doc Hread) as (this1 & Hid & _ & ->).
    rewrite (fetchPosts_pagination_failure P _ this1 e); [done|].
    by rewrite (params_same_id P this1 this).
  - by apply (fetch_first_failure P this responses k (failure e) e).
  - by apply (fetch_first_failure P this responses k (success html) e).
Qed.

Lemma fetch_throws_failure_unchanged_witness :
  fst (fetch site_no_session (new_Thread 42))
    = Throw (GenericAxiosError 1 "Request failed with status code 403").
Proof.
  apply (fetch_throws_failure_unchanged site_no_session (new_Thread 42)).
  eapply pagination_request_fails.
  - eapply first_page_read_intro; reflexivity.
  - reflexivity.
Defined.

(** C10.  When every page loads and parses, the posts of the thread are a
    permutation of the posts of the pages put end to end: each parsed post
    is there once, none is lost and none is added. *)
Theorem fetch_posts_permutation
    (P : Platform) (this : Thread) (responses : list (Result error string))
    (pss : list (list Post)) :
  fans_out P this responses ->
  Forall2 (fun response posts => page_result P response = Return posts) responses pss ->
  exists posts,
    fst (fetch P this) = Return tt /\
    _posts (snd (fetch P this)) = Some posts /\
    posts ≡ₚ concat pss.
Proof.
  intros Hfan Hall.
  destruct (fetch_all_pages P this responses pss Hfan Hall) as [Hret Hposts].
  exists (Array_sort compare_posts (concat pss)).
  split; [done|]. split; [done|]. apply Array_sort_Permutation.
Qed.

Lemma fetch_posts_permutation_witness :
  exists posts,
    fst (fetch site_three_pages (new_Thread 42)) = Return tt /\
    _posts (snd (fetch site_three_pages (new_Thread 42))) = Some posts /\
    posts ≡ₚ [post 103 "c"; post 101 "a"; post 102 "b"; post 205 "e"; post 204 "d"].
Proof.
  apply (fetch_posts_permutation site_three_pages (new_Thread 42)
           [success "page one"; success "page two"; success "page three"]
           [[post 103 "c"; post 101 "a"]; [post 102 "b"; post 205 "e"];
            [post 204 "d"]]).
  - run_fan_out.
  - repeat constructor.
Defined.

(** * The queries *)

Import HandiworkSearchQuery.

(** ** The casts *)

(** The remap of [castToLatest]: every unified order value becomes one of
    the latest listing, in the receiver, whether or not the call goes on
    to throw for the date. *)
Lemma castToLatest_order_remap (this : HandiworkSearchQuery.t) :
  order this ∈ THandiworkOrder ->
  order (snd (castToLatest this)) ∈ TLatestOrder.
Proof.
  intros Hin. unfold castToLatest.
  assert (forall o, o ∈ THandiworkOrder ->
            (if String.eqb o "relevance" then "rating"
             else if String.eqb o "replies" then "views" else o) ∈ TLatestOrder)
    as Hremap.
  { intros o Ho. unfold THandiworkOrder in Ho.
    repeat (apply elem_of_cons in Ho as [->|Ho]); [compute_done..|].
    by apply elem_of_nil in Ho. }
  destruct (newerThan _); simpl; by apply Hremap.
Qed.

(** The remap of [castToThread]. *)
Lemma castToThread_order_remap (this : HandiworkSearchQuery.t) :
  order this ∈ THandiworkOrder ->
  order (snd (castToThread this)) ∈ TThreadOrder.
Proof.
  intros Hin. unfold castToThread. simpl.
  unfold THandiworkOrder in Hin.
  repeat (apply elem_of_cons in Hin as [->|Hin]); [compute_done..|].
  by apply elem_of_nil in Hin.
Qed.

(** What [castToThread] leaves in the object it hands back. *)
Lemma castToThread_common_values (this : HandiworkSearchQuery.t) :
  exists query,
    castToThread this = (Return query, query) /\
    excludedTags query = excludedTags this /\
    newerThan query = newerThan this /\
    olderThan query = olderThan this /\
    onlyTitles query = Some true /\
    keywords query = keywords this.
Proof. eexists. repeat split. Qed.

(** [cast] takes neither branch: the object comes back as it went in,
    whatever the type argument. *)
Lemma cast_returns_this (T : TQueryInterface) (this : HandiworkSearchQuery.t) :
  cast T this = (Return this, this).
Proof. reflexivity. Qed.

(** C3.  The code at the failing inputs: cast to the latest listing, the
    unified query of order "relevance" keeps that order, which the latest
    listing does not have; cast to the thread search, the query of order
    "likes" keeps "likes", which the thread search does not have. *)
Theorem cast_passes_order_through :
  order (snd (cast "LatestSearchQuery" HandiworkSearchQuery.new)) = "relevance" /\
  ("relevance" ∉ TLatestOrder) /\
  order (snd (cast "ThreadSearchQuery" by_likes)) = "likes" /\
  ("likes" ∉ TThreadOrder).
Proof. repeat split; compute_done. Qed.

(** C8.  The code at the failing input: cast to the thread search, a
    query by keywords comes back with [onlyTitles] undefined and with the
    tag of the unified class. *)
Theorem cast_leaves_onlyTitles_undefined :
  fst (cast "ThreadSearchQuery" by_keywords) = Return by_keywords /\
  onlyTitles by_keywords = None /\
  itype by_keywords = "HandiworkSearchQuery".
Proof. repeat split. Qed.

(** ** The choice of the backend *)

(** C4.  A query with keywords goes to the thread search; one without
    keywords goes to the latest listing with at most five included tags
    and to the thread search with more. *)
Theorem selectSearchType_routes (this : HandiworkSearchQuery.t) :
  (keywords this <> "" -> selectSearchType this = thread) /\
  (keywords this = "" -> (length (includedTags this) <= 5)%nat ->
   selectSearchType this = latest) /\
  (keywords this = "" -> (5 < length (includedTags this))%nat ->
   selectSearchType this = thread).
Proof.
  unfold selectSearchType.
  split; [|split].
  - intros Hkeywords. destruct (keywords this); [done|reflexivity].
  - intros -> Htags. simpl.
    destruct (Z.ltb_spec 5 (Z.of_nat (length (includedTags this)))); [lia|done].
  - intros -> Htags. simpl.
    destruct (Z.ltb_spec 5 (Z.of_nat (length (includedTags this)))); [done|lia].
Qed.

Lemma selectSearchType_routes_witness :
  selectSearchType by_keywords = thread /\
  selectSearchType by_five_tags = latest /\
  selectSearchType by_six_tags = thread.
Proof.
  split; [|split].
  - apply (proj1 (selectSearchType_routes by_keywords)). discriminate.
  - apply (proj1 (proj2 (selectSearchType_routes by_five_tags))).
    + reflexivity.
    + simpl. lia.
  - apply (proj2 (proj2 (selectSearchType_routes by_six_tags))).
    + reflexivity.
    + simpl. lia.
Defined.

(** ** The URL of a query *)

(** Whatever the query, the validator of the class reports a violation:
    the constraints on [tags] and on [page] are [undefined], and no length
    and no page stands the comparison with that. *)
Lemma validate_refuses_every_query (not_an_array : bool) (this : SearchQuery.t) :
  SearchQuery.validate (SearchQuery.decorators not_an_array) this = false.
Proof.
  unfold SearchQuery.validate, SearchQuery.decorators. apply Nat.eqb_neq.
  rewrite !length_app. simpl. lia.
Qed.

(** C6.  The code at the failing input: for the query of category
    "games", no tags, no prefixes, sort "date", date [null] and page 1,
    [createUrl] gives no URL, whatever the validator answers; with the
    decorators as the class applies them it throws the error of an invalid
    query; and were a validator to pass the query, the call would throw
    the [TypeError] of [toString] on [null]. *)
Theorem createUrl_null_date_gives_no_url
    (validateSync : SearchQuery.t -> list ValidationError) (F95_LATEST_PHP : string)
    (not_an_array : bool) :
  produces_url (SearchQuery.createUrl validateSync F95_LATEST_PHP games_by_date) = false /\
  SearchQuery.createUrl (SearchQuery.decorators not_an_array) F95_LATEST_PHP games_by_date
    = Throw (Error "Invalid query") /\
  (SearchQuery.validate validateSync games_by_date = true ->
   SearchQuery.createUrl validateSync F95_LATEST_PHP games_by_date
     = Throw (TypeError "Cannot read properties of null (reading 'toString')")).
Proof.
  split; [|split].
  - unfold SearchQuery.createUrl.
    by destruct (negb (SearchQuery.validate validateSync games_by_date)).
  - unfold SearchQuery.createUrl. by rewrite validate_refuses_every_query.
  - intros Hvalid. unfold SearchQuery.createUrl. by rewrite Hvalid.
Qed.

(** A valid unified query never gets its URL: the object that comes back
    from [cast] is the receiver, and the call goes round until the stack
    is used up. *)
Lemma createURL_valid_overflows
    (validateSync : HandiworkSearchQuery.t -> list ValidationError)
    (stack : nat) (this : HandiworkSearchQuery.t) :
  validate validateSync this = true ->
  createURL validateSync stack this
    = (Throw (RangeError "Maximum call stack size exceeded"), this).
Proof.
  intros Hvalid. induction stack as [|stack IH]; [done|].
  simpl. rewrite Hvalid. simpl.
  by destruct (selectSearchType this); rewrite cast_returns_this.
Qed.

(** C7.  URL generation fails closed.  For both classes: where [validate]
    answers false, the call throws the error of an invalid query and gives
    no URL; where it answers true, what the call comes to is not that
    error.  This holds whatever the validator reports. *)
Theorem url_generation_fails_closed
    (validateLatest : SearchQuery.t -> list ValidationError)
    (validateHandiwork : HandiworkSearchQuery.t -> list ValidationError)
    (F95_LATEST_PHP : string)
    (query : SearchQuery.t) (this : HandiworkSearchQuery.t) (stack : nat) :
  (SearchQuery.validate validateLatest query = false ->
   SearchQuery.createUrl validateLatest F95_LATEST_PHP query
     = Throw (Error "Invalid query")) /\
  (SearchQuery.validate validateLatest query = true ->
   signals_invalid_query
     (SearchQuery.createUrl validateLatest F95_LATEST_PHP query) = false) /\
  (validate validateHandiwork this = false ->
   signals_invalid_query (fst (createURL validateHandiwork (S stack) this)) = true /\
   produces_url (fst (createURL validateHandiwork (S stack) this)) = false) /\
  (validate validateHandiwork this = true ->
   signals_invalid_query (fst (createURL validateHandiwork stack this)) = false).
Proof.
  split; [|split; [|split]].
  - intros Hinvalid. unfold SearchQuery.createUrl. by rewrite Hinvalid.
  - intros Hvalid. unfold SearchQuery.createUrl. rewrite Hvalid. simpl.
    by destruct (SearchQuery.date query).
  - intros Hinvalid. simpl. by rewrite Hinvalid.
  - intros Hvalid. by rewrite createURL_valid_overflows.
Qed.

Lemma url_generation_fails_closed_witness :
  SearchQuery.createUrl (SearchQuery.decorators true) latest_php six_tags
    = Throw (Error "Invalid query") /\
  (signals_invalid_query
     (fst (createURL HandiworkSearchQuery.decorators 3 page_zero)) = true /\
   produces_url (fst (createURL HandiworkSearchQuery.decorators 3 page_zero)) = false) /\
  signals_invalid_query
    (fst (createURL HandiworkSearchQuery.decorators 3 by_keywords)) = false.
Proof.
  split; [|split].
  - apply (proj1 (url_generation_fails_closed (SearchQuery.decorators true)
             HandiworkSearchQuery.decorators latest_php six_tags page_zero 0)).
    reflexivity.
  - apply (proj1 (proj2 (proj2 (url_generation_fails_closed (SearchQuery.decorators true)
             HandiworkSearchQuery.decorators latest_php six_tags page_zero 2)))).
    reflexivity.
  - apply (proj2 (proj2 (proj2 (url_generation_fails_closed (SearchQuery.decorators true)
             HandiworkSearchQuery.decorators latest_php six_tags by_keywords 3)))).
    reflexivity.
Defined.

(** * The search *)

Section SearchProperties.

Context (P : Platform).

Lemma extractLinkFromResult_resolved (el : option string) (url : string) :
  resolved P el url -> extractLinkFromResult P el = Return url.
Proof.
  intros (href & -> & Hurl). unfold extractLinkFromResult. by rewrite Hurl.
Qed.

Lemma extract_links_resolved (results : list (option string)) :
  Forall (has_link P) results ->
  exists urls,
    extract_links P results = Return urls /\ Forall2 (resolved P) results urls.
Proof.
  induction 1 as [|el results [url Hel] _ (urls & Hurls & Hall)].
  - exists []. by split; [|constructor].
  - exists (url :: urls). split; [|by constructor].
    simpl. by rewrite (extractLinkFromResult_resolved el url), Hurls.
Qed.

End SearchProperties.

(** C9, as it is stated, fails on a page that was fetched: with a
    negative limit the search returns more URLs than the limit, since
    [slice] then counts from the end of the results; and one result body
    without a title link makes the search throw instead of returning a
    list. *)
Lemma fetched_page_beyond_limit_or_thrown :
  fetchHTML site_search (site_base +:+ "search") = success "results" /\
  fetchResultURLs site_search (site_base +:+ "search") (Some (-1))
    = Return ["https://f95zone.to/threads/a-game.101/";
              "https://f95zone.to/threads/b-game.102/"] /\
  ~ (Z.of_nat (length ["https://f95zone.to/threads/a-game.101/";
                       "https://f95zone.to/threads/b-game.102/"]) <= -1) /\
  fetchHTML site_broken_result (site_base +:+ "search") = success "results" /\
  fetchResultURLs site_broken_result (site_base +:+ "search") None
    = Throw (TypeError "Cannot read properties of undefined (reading 'trim')").
Proof.
  split; [reflexivity|]. split; [reflexivity|]. split; [simpl; lia|].
  split; reflexivity.
Qed.

(** C9, amended.  For a result page that was fetched and a limit that is
    not negative (30 when the caller gives none): where each of the first
    [limit] result bodies has a title link that resolves, the search
    returns a list of at most [limit] URLs, the links of those bodies in
    their order, each resolved against the base URL of the platform; and a
    page with no result body gives the empty list, returned and not
    thrown. *)
Theorem fetchResultURLs_at_most_limit
    (P : Platform) (url : string) (limit : option Z) (html : string) :
  fetchHTML P url = success html ->
  0 <= default 30 limit ->
  (Forall (has_link P)
     (take (Z.to_nat (default 30 limit)) (cheerio_results P html)) ->
   exists urls,
     fetchResultURLs P url limit = Return urls /\
     Z.of_nat (length urls) <= default 30 limit /\
     Forall2 (resolved P)
       (take (Z.to_nat (default 30 limit)) (cheerio_results P html)) urls) /\
  (cheerio_results P html = [] -> fetchResultURLs P url limit = Return []).
Proof.
  intros Hhtml Hlimit. split.
  - intros Hlinks.
    destruct (extract_links_resolved P _ Hlinks) as (urls & Hurls & Hall).
    exists urls. split; [|split; [|done]].
    + unfold fetchResultURLs. rewrite Hhtml.
      by rewrite Array_slice_from_start.
    + apply Forall2_length in Hall. rewrite <- Hall, length_take. lia.
  - intros Hempty. unfold fetchResultURLs. rewrite Hhtml, Hempty.
    by rewrite Array_slice_from_start, take_nil.
Qed.

(** Three results and a limit of two: the first two links, resolved. *)
Lemma fetchResultURLs_at_most_limit_witness :
  exists urls,
    fetchResultURLs site_search (site_base +:+ "search") (Some 2) = Return urls /\
    Z.of_nat (length urls) <= 2 /\
    Forall2 (resolved site_search)
      [Some "  threads/a-game.101/ "; Some "threads/b-game.102/"] urls.
Proof.
  apply (fetchResultURLs_at_most_limit site_search (site_base +:+ "search")
           (Some 2) "results").
  - reflexivity.
  - simpl. lia.
  - simpl. repeat constructor; eexists; eexists; (split; [reflexivity|reflexivity]).
Defined.

(** A page without results, and no limit given: the empty list. *)
Example fetchResultURLs_empty_page :
  fetchResultURLs site_empty_search (site_base +:+ "search") None = Return [].
Proof. reflexivity. Qed.

(** * More on the thread pipeline *)

(** X1.  The order in which the page requests settle does not show: on a
    platform where they settle in any other order, [fetch] comes to the
    same outcome and leaves the same thread. *)
Theorem fetch_same_for_every_completion_order
    (P : Platform) (this : Thread) (responses : list (Result error string))
    (order : list nat) :
  fans_out P this responses ->
  order ≡ₚ seq 0 (length responses) ->
  fetch (with_completion_order order P) this = fetch P this.
Proof. apply fetch_any_completion_order. Qed.

Lemma fetch_same_for_every_completion_order_witness :
  fetch (with_completion_order [1; 2; 0]%nat site_two_failures) (new_Thread 42)
    = fetch site_two_failures (new_Thread 42).
Proof.
  apply (fetch_same_for_every_completion_order site_two_failures (new_Thread 42)
           [success "page one"; failure timeout_error; failure reset_error]).
  - run_fan_out.
  - compute_done.
Defined.

(** [fetchPosts] leaves the thread as it found it, and what it returns is
    sorted. *)
Lemma fetchPosts_receiver_and_order (P : Platform) (pages : option Z) (this : Thread) :
  snd (fetchPosts P pages this) = this /\
  forall posts, fst (fetchPosts P pages this) = Return posts -> ascending posts.
Proof.
  unfold fetchPosts, bind, setMaximumPostsForPage, lift, ret.
  destruct (fetchPOSTResponse P _ _); [by split|].
  destruct (request_pages P _) as [htmlPromiseList| |]; [|by split..].
  destruct (Promise_all _ _) as [responses| |]; [|by split..].
  destruct (scrape_pages P responses []) as [fetchedPosts| |]; [|by split..].
  split; [done|]. intros posts [= <-]. apply sort_posts_ascending.
Qed.

(** X2.  On every platform and from every state of the thread, [fetch]
    keeps the identifier, and the posts are assigned exactly when it
    returns: then the thread has its URL, title, tags, prefixes, owner,
    creation date, rating and an ascending list of posts; when it throws or
    stays pending the posts are left as they were. *)
Theorem fetch_assigns_posts_only_on_return (P : Platform) (this : Thread) :
  _id (snd (fetch P this)) = _id this /\
  match fst (fetch P this) with
  | Return _ =>
      let after := snd (fetch P this) in
      (exists posts, _posts after = Some posts /\ ascending posts) /\
      is_Some (_url after) /\ is_Some (_title after) /\ is_Some (_tags after) /\
      is_Some (_prefixes after) /\ is_Some (_owner after) /\
      is_Some (_creation after) /\ is_Some (_rating after)
  | _ => _posts (snd (fetch P this)) = _posts this
  end.
Proof.
  unfold fetch.
  destruct (new_URL P _ _) as [url|]; [|by split].
  destruct (fetchHTML P url) as [e|html]; [by split|].
  unfold bind at 1. unfold lift at 1.
  destruct (dom_JSONLD _) as [JSONLD| |]; [|by split..].
  unfold bind, assign, lift.
  destruct (parseRating P JSONLD) as [rating| |]; [|by split..].
  match goal with
  | |- context [fetchPosts P ?pages ?t] =>
      destruct (fetchPosts_receiver_and_order P pages t) as [Hsame Hsorted];
      destruct (fetchPosts P pages t) as [[posts|e|] this'] eqn:Hfetch
  end; simpl in Hsame; subst this'; simpl; [|by split..].
  split; [done|]. split; [|by repeat split; eexists].
  exists posts. split; [done|]. by apply Hsorted.
Qed.

(** X3.  When the first page was read and the pagination request went
    through but the page count read from the page is [NaN] or below one,
    no page is requested and [fetch] returns with an empty list of posts,
    not with a failure. *)
Theorem fetch_without_pages_gives_no_posts
    (P : Platform) (this : Thread) (doc : ThreadDOM) (accepted : AxiosResponse) :
  first_page_read P this doc ->
  fetchPOSTResponse P (F95_POSTS_NUMBER P) (params P this 100) = success accepted ->
  (forall n, parseInt P (Some (dom_lastPage doc)) = Some n -> n <= 0) ->
  fst (fetch P this) = Return tt /\ _posts (snd (fetch P this)) = Some [].
Proof.
  intros Hread Hpost Hpages.
  destruct (fetch_first_page_read P this doc Hread) as (this1 & Hid & _ & ->).
  assert (page_indices (parseInt P (Some (dom_lastPage doc))) = []) as Hnone.
  { destruct (parseInt P _) as [n|]; [|done]. simpl.
    specialize (Hpages n eq_refl). by rewrite seqZ_nil by lia. }
  unfold fetchPosts, bind, setMaximumPostsForPage, lift, ret.
  rewrite (params_same_id P this1 this), Hpost, Hnone by done.
  simpl. unfold Promise_all. simpl.
  assert (forall order, foldl (settle ([] : list (Result error string))) [] order = [])
    as ->; [|done].
  intros order. induction order as [|i order IH]; [done|]. exact IH.
Qed.

Lemma fetch_without_pages_gives_no_posts_witness :
  fst (fetch site_no_pages (new_Thread 42)) = Return tt /\
  _posts (snd (fetch site_no_pages (new_Thread 42))) = Some [].
Proof.
  eapply (fetch_without_pages_gives_no_posts site_no_pages (new_Thread 42)).
  - eapply first_page_read_intro; reflexivity.
  - reflexivity.
  - intros n [= <-]. lia.
Defined.

(** X4.  The fan-out asks for the pages 1 to [pages], one request for
    each and in that order: response [i] is the fetch of the URL that
    "page-(i+1)" resolves to against the base URL, and there are as many
    responses as pages (none when the count is [NaN] or below one). *)
Theorem request_pages_one_per_page
    (P : Platform) (pages : option Z) (responses : list (Result error string)) :
  request_pages P (page_indices pages) = Return responses ->
  Z.of_nat (length responses) = Z.max 0 (default 0 pages) /\
  forall (i : nat) response,
    responses !! i = Some response ->
    exists url,
      new_URL P ("page-" +:+ pretty (Z.of_nat i + 1)) (F95_BASE_URL P) = Some url /\
      response = fetchHTML P url.
Proof.
  intros Hreq. split; [by apply (request_pages_length P)|].
  intros i response Hi.
  apply (request_pages_in_order P) in Hreq.
  eapply Forall2_lookup_r in Hreq as (index & Hindex & url & Hurl & ->); [|exact Hi].
  exists url. split; [|done].
  destruct pages as [n|]; simpl in Hindex; [|done].
  apply lookup_seqZ in Hindex as [-> _].
  by rewrite (Z.add_comm (Z.of_nat i) 1).
Qed.

Lemma request_pages_one_per_page_witness :
  Z.of_nat (length [fetchHTML site_three_pages "https://f95zone.to/page-1";
                    fetchHTML site_three_pages "https://f95zone.to/page-2";
                    fetchHTML site_three_pages "https://f95zone.to/page-3"]) = 3 /\
  forall (i : nat) response,
    [fetchHTML site_three_pages "https://f95zone.to/page-1";
     fetchHTML site_three_pages "https://f95zone.to/page-2";
     fetchHTML site_three_pages "https://f95zone.to/page-3"] !! i = Some response ->
    exists url,
      new_URL site_three_pages ("page-" +:+ pretty (Z.of_nat i + 1))
        (F95_BASE_URL site_three_pages) = Some url /\
      response = fetchHTML site_three_pages url.
Proof.
  apply (request_pages_one_per_page site_three_pages (Some 3)).
  reflexivity.
Defined.

Section Stability.

Context {A : Type} (comparefn : A -> A -> Z).
Context (same : A -> Prop) `{!forall x, Decision (same x)}.

(** The elements that [same] picks are never moved past one another when
    the comparator puts none of them after another. *)
Context (same_not_after : forall x y, same x -> same y -> comparefn x y <= 0).

Lemma sorted_insert_filter (x : A) (l : list A) :
  filter same (sorted_insert comparefn x l) = filter same (x :: l).
Proof.
  induction l as [|y l IH]; [done|]. simpl.
  destruct (Z.ltb_spec 0 (comparefn x y)) as [Hpos|_]; [|done].
  rewrite filter_cons, IH, !filter_cons.
  destruct (decide (same y)) as [Hy|Hy]; [|done].
  destruct (decide (same x)) as [Hx|Hx]; [|done].
  specialize (same_not_after x y Hx Hy). lia.
Qed.

Lemma Array_sort_filter (l : list A) :
  filter same (Array_sort comparefn l) = filter same l.
Proof.
  induction l as [|x l IH]; [done|].
  unfold Array_sort in *. simpl.
  by rewrite sorted_insert_filter, !filter_cons, IH.
Qed.

End Stability.

(** X5.  Posts of the same ID keep the order of their pages: after a
    fetch in which every page loads and parses, the posts of any given ID
    stand in the thread in the order in which the pages, taken by page
    number, showed them. *)
Theorem fetch_keeps_page_order_of_equal_ids
    (P : Platform) (this : Thread) (responses : list (Result error string))
    (pss : list (list Post)) (id : Z) :
  fans_out P this responses ->
  Forall2 (fun response posts => page_result P response = Return posts) responses pss ->
  exists posts,
    _posts (snd (fetch P this)) = Some posts /\
    filter (fun p => post_id p = id) posts
      = filter (fun p => post_id p = id) (concat pss).
Proof.
  intros Hfan Hall.
  destruct (fetch_all_pages P this responses pss Hfan Hall) as [_ Hposts].
  eexists. split; [exact Hposts|].
  apply Array_sort_filter. intros a b Ha Hb. unfold compare_posts.
  rewrite Ha, Hb, Z.ltb_irrefl. done.
Qed.

Lemma fetch_keeps_page_order_of_equal_ids_witness :
  exists posts,
    _posts (snd (fetch site_repeated_post (new_Thread 42))) = Some posts /\
    filter (fun p => post_id p = 7) posts
      = [post 7 "seen on page one"; post 7 "seen on page two"].
Proof.
  apply (fetch_keeps_page_order_of_equal_ids site_repeated_post (new_Thread 42)
           [success "page one"; success "page two"]
           [[post 7 "seen on page one"]; [post 7 "seen on page two"]] 7).
  - run_fan_out.
  - repeat constructor.
Defined.

(** * More on the queries *)

(** ** The validation of the latest listing *)

(** X12.  With the decorators as the class applies them, their
    constraints read from [SearchQuery.prototype] where the fields of the
    instances are not defined, [validate] refuses every query, the default
    one included, so [createUrl] throws the error of an invalid query for
    every query and never returns a URL. *)
Theorem createUrl_refuses_every_query
    (not_an_array : bool) (F95_LATEST_PHP : string) (query : SearchQuery.t) :
  SearchQuery.validate (SearchQuery.decorators not_an_array) query = false /\
  SearchQuery.createUrl (SearchQuery.decorators not_an_array) F95_LATEST_PHP query
    = Throw (Error "Invalid query").
Proof.
  split; [apply validate_refuses_every_query|].
  unfold SearchQuery.createUrl. by rewrite validate_refuses_every_query.
Qed.

(** ** The unified query *)

(** X13.  [createURL] of the unified query never gives a URL, valid query
    or not and whatever the room on the stack, and it leaves the query as
    it found it: an invalid query is refused, and for a valid one the cast
    hands back the query itself, whose [createURL] is called again. *)
Theorem createURL_never_gives_url
    (validateSync : HandiworkSearchQuery.t -> list ValidationError)
    (stack : nat) (this : HandiworkSearchQuery.t) :
  produces_url (fst (createURL validateSync stack this)) = false /\
  snd (createURL validateSync stack this) = this.
Proof.
  destruct (validate validateSync this) eqn:Hvalid.
  - by rewrite createURL_valid_overflows.
  - destruct stack as [|stack]; simpl; [done|]. by rewrite Hvalid.
Qed.

(** X14.  [castToLatest] turns every order of the unified vocabulary
    into a sort that the latest listing accepts, and tags the object as a
    latest query; when the query has a lower date bound the call then
    throws, with the object already changed. *)
Theorem castToLatest_remaps_then_dates (this : HandiworkSearchQuery.t) :
  order this ∈ THandiworkOrder ->
  order (snd (castToLatest this)) ∈ SearchQuery.VALID_SORT /\
  itype (snd (castToLatest this)) = "LatestSearchQuery" /\
  (is_Some (newerThan this) -> exists e, fst (castToLatest this) = Throw e) /\
  (newerThan this = None -> fst (castToLatest this) = Return (snd (castToLatest this))).
Proof.
  intros Hin. split; [by apply castToLatest_order_remap|].
  unfold castToLatest. simpl.
  destruct (newerThan this) as [date|]; simpl.
  - split; [done|]. split; [by eexists|done].
  - split; [done|]. split; [by intros [? ?]|done].
Qed.

Lemma castToLatest_remaps_then_dates_witness :
  order (snd (castToLatest since_march)) ∈ SearchQuery.VALID_SORT /\
  itype (snd (castToLatest since_march)) = "LatestSearchQuery" /\
  exists e, fst (castToLatest since_march) = Throw e.
Proof.
  destruct (castToLatest_remaps_then_dates since_march ltac:(compute_done))
    as (Horder & Hitype & Hdate & _).
  split; [exact Horder|]. split; [exact Hitype|].
  apply Hdate. by eexists.
Defined.

(** X15.  The casts settle at once and touch nothing else: a second
    [castToThread] (or [castToLatest]) leaves the object as the first left
    it; after [castToThread] the order is neither "likes" nor "title" and
    the search is by title only; keywords, tags, dates and page are as
    before under both. *)
Theorem casts_are_idempotent (this : HandiworkSearchQuery.t) :
  let threaded := snd (castToThread this) in
  let listed := snd (castToLatest this) in
  snd (castToThread threaded) = threaded /\
  snd (castToLatest listed) = listed /\
  order threaded <> "likes" /\ order threaded <> "title" /\
  onlyTitles threaded = Some true /\
  (keywords threaded, includedTags threaded, excludedTags threaded,
   newerThan threaded, olderThan threaded, page threaded)
  = (keywords this, includedTags this, excludedTags this,
     newerThan this, olderThan this, page this) /\
  (keywords listed, includedTags listed, excludedTags listed,
   newerThan listed, olderThan listed, page listed, onlyTitles listed)
  = (keywords this, includedTags this, excludedTags this,
     newerThan this, olderThan this, page this, onlyTitles this).
Proof.
  destruct this as [kw nt ot it et ip cat o pg ity only].
  unfold castToThread, castToLatest. simpl.
  split; [|split; [|split; [|split]]].
  - destruct (String.eqb_spec o "likes") as [->|Hl]; [done|].
    destruct (String.eqb_spec o "title") as [->|Ht]; [done|].
    simpl. apply String.eqb_neq in Hl, Ht. by rewrite Hl, Ht.
  - destruct (String.eqb_spec o "relevance") as [->|Hr]; [by destruct nt|].
    destruct (String.eqb_spec o "replies") as [->|Hp]; [by destruct nt|].
    apply String.eqb_neq in Hr, Hp.
    destruct nt; simpl; by rewrite Hr, Hp.
  - destruct (String.eqb_spec o "likes") as [->|Hl]; [done|].
    by destruct (String.eqb_spec o "title") as [->|Ht].
  - destruct (String.eqb_spec o "likes") as [->|Hl]; [done|].
    by destruct (String.eqb_spec o "title") as [->|Ht].
  - split; [done|]. split; [done|]. by destruct nt.
Qed.

(** * More on the search *)

Lemma Array_slice_from_start_negative {A} (final : Z) (l : list A) :
  final < 0 ->
  Array_slice 0 final l = take (Z.to_nat (Z.of_nat (length l) + final)) l.
Proof.
  intros Hfinal. unfold Array_slice.
  replace (final <? 0) with true by (symmetry; apply Z.ltb_lt; lia).
  replace (0 <? 0) with false by done.
  rewrite (Z.min_l 0) by lia. rewrite Z.sub_0_r.
  change (Z.to_nat 0) with 0%nat. rewrite drop_0.
  destruct (Z.max_spec (Z.of_nat (length l) + final) 0) as [[? ->]|[? ->]]; [|done].
  by replace (Z.to_nat (Z.of_nat (length l) + final)) with 0%nat by lia.
Qed.

Section MoreSearchProperties.

Context (P : Platform).

Lemma extract_links_first_without_link (results : list (option string)) (k : nat) :
  results !! k = Some None ->
  Forall (has_link P) (take k results) ->
  extract_links P results
    = Throw (TypeError "Cannot read properties of undefined (reading 'trim')").
Proof.
  revert k. induction results as [|el results IH]; intros k Hk Hbefore; [done|].
  destruct k as [|k]; simpl in Hk.
  - by injection Hk as ->.
  - simpl in Hbefore. apply Forall_cons in Hbefore as [[url Hel] Hbefore].
    simpl. rewrite (extractLinkFromResult_resolved P el url Hel).
    by rewrite (IH k).
Qed.

End MoreSearchProperties.

(** X16.  One result body without a title link among those within the
    limit makes the whole search throw: the links of the bodies before it
    are not returned. *)
Theorem fetchResultURLs_throws_without_link
    (P : Platform) (url : string) (limit : option Z) (html : string) (k : nat) :
  fetchHTML P url = success html ->
  cheerio_results P html !! k = Some None ->
  Z.of_nat k < default 30 limit ->
  Forall (has_link P) (take k (cheerio_results P html)) ->
  fetchResultURLs P url limit
    = Throw (TypeError "Cannot read properties of undefined (reading 'trim')").
Proof.
  intros Hhtml Hk Hlimit Hbefore.
  unfold fetchResultURLs. rewrite Hhtml.
  rewrite Array_slice_from_start by lia.
  apply (extract_links_first_without_link P _ k).
  - rewrite lookup_take_lt by lia. done.
  - rewrite take_take, Nat.min_l by lia. done.
Qed.

Lemma fetchResultURLs_throws_without_link_witness :
  fetchResultURLs site_broken_result (site_base +:+ "search") None
    = Throw (TypeError "Cannot read properties of undefined (reading 'trim')").
Proof.
  apply (fetchResultURLs_throws_without_link site_broken_result
           (site_base +:+ "search") None "results" 1).
  - reflexivity.
  - reflexivity.
  - simpl. lia.
  - repeat constructor. eexists; eexists; split; reflexivity.
Defined.

(** X17.  On a page whose result bodies all have a title link that
    resolves, the search returns as many URLs as the smaller of the limit
    and the number of results when the limit is not negative, and, when it
    is negative, as many as there are results less the size of the limit:
    a negative limit drops results from the end instead of giving none. *)
Theorem fetchResultURLs_count
    (P : Platform) (url : string) (limit : Z) (html : string) :
  fetchHTML P url = success html ->
  Forall (has_link P) (cheerio_results P html) ->
  let n := Z.of_nat (length (cheerio_results P html)) in
  let shown := if limit <? 0 then Z.max 0 (n + limit) else Z.min limit n in
  exists urls,
    fetchResultURLs P url (Some limit) = Return urls /\
    Z.of_nat (length urls) = shown /\
    Forall2 (resolved P) (take (Z.to_nat shown) (cheerio_results P html)) urls.
Proof.
  intros Hhtml Hlinks n shown.
  assert (Array_slice 0 limit (cheerio_results P html)
          = take (Z.to_nat shown) (cheerio_results P html)) as Hslice.
  { subst shown n. destruct (Z.ltb_spec limit 0).
    - rewrite Array_slice_from_start_negative by done.
      destruct (Z.max_spec 0 (Z.of_nat (length (cheerio_results P html)) + limit))
        as [[? ->]|[? ->]]; [done|].
      by replace (Z.to_nat (Z.of_nat (length (cheerio_results P html)) + limit))
        with (Z.to_nat 0) by lia.
    - rewrite Array_slice_from_start by done.
      destruct (Z.min_spec limit (Z.of_nat (length (cheerio_results P html))))
        as [[? ->]|[? ->]]; [done|].
      rewrite Nat2Z.id. by rewrite !take_ge by lia. }
  destruct (extract_links_resolved P (take (Z.to_nat shown) (cheerio_results P html)))
    as (urls & Hurls & Hall); [by apply Forall_take|].
  exists urls. split; [|split; [|done]].
  - unfold fetchResultURLs. rewrite Hhtml. simpl default. by rewrite Hslice.
  - apply Forall2_length in Hall. rewrite <- Hall, length_take.
    subst shown n. destruct (Z.ltb_spec limit 0); lia.
Qed.

Lemma fetchResultURLs_count_witness :
  exists urls,
    fetchResultURLs site_search (site_base +:+ "search") (Some (-1)) = Return urls /\
    Z.of_nat (length urls) = 2 /\
    Forall2 (resolved site_search)
      [Some "  threads/a-game.101/ "; Some "threads/b-game.102/"] urls.
Proof.
  apply (fetchResultURLs_count site_search (site_base +:+ "search") (-1) "results").
  - reflexivity.
  - repeat constructor; eexists; eexists; split; reflexivity.
Defined.

(** X18.  A search through [fetchHandiworkURLs] that goes to the thread
    search never returns URLs: the query that [cast] hands back is the
    unified query, whose [createURL] gives no URL, so the call throws
    before any page is asked for, with the error of an invalid query or,
    for a valid query, with the overflow of the stack. *)
Theorem fetchHandiworkURLs_thread_search_throws
    (P : Platform)
    (validateSync : HandiworkSearchQuery.t -> list ValidationError) (stack : nat)
    (fetchLatestHandiworkURLs : option Z -> method HandiworkSearchQuery.t (list string))
    (limit : option Z) (query : HandiworkSearchQuery.t) :
  selectSearchType query = thread ->
  exists e,
    fetchHandiworkURLs P validateSync stack fetchLatestHandiworkURLs limit query
      = (Throw e, query) /\
    (validate validateSync query = true ->
     e = RangeError "Maximum call stack size exceeded").
Proof.
  intros Hthread. unfold fetchHandiworkURLs. rewrite Hthread.
  unfold bind at 1. rewrite cast_returns_this.
  unfold fetchThreadHandiworkURLs, bind.
  destruct (validate validateSync query) eqn:Hvalid.
  - rewrite createURL_valid_overflows by done. by eexists.
  - destruct stack as [|stack]; simpl; [by eexists|].
    rewrite Hvalid. simpl. by eexists.
Qed.

Lemma fetchHandiworkURLs_thread_search_throws_witness :
  exists e,
    fetchHandiworkURLs site_search HandiworkSearchQuery.decorators 100
      no_latest_results None by_keywords = (Throw e, by_keywords) /\
    (validate HandiworkSearchQuery.decorators by_keywords = true ->
     e = RangeError "Maximum call stack size exceeded").
Proof.
  apply (fetchHandiworkURLs_thread_search_throws site_search
           HandiworkSearchQuery.decorators 100 no_latest_results None by_keywords).
  reflexivity.
Defined.
(** * The objects of [Basic] *)

Section BasicProperties.

Context {V : Type} (setPrototypeOf : V -> gset string -> gset string).

Implicit Types (this : Basic.object V) (src : gmap string V)
  (entries : list (string * V)).

Lemma assign_own_other this (k key : string) (v : V) :
  k <> key ->
  Basic.own (Basic.assign setPrototypeOf this k v) !! key = Basic.own this !! key.
Proof.
  intros Hne. unfold Basic.assign. destruct (decide _); simpl; [done|].
  by rewrite lookup_insert_ne.
Qed.

Lemma assign_inherited_other this (k : string) (v : V) :
  k <> "__proto__" ->
  Basic.inherited (Basic.assign setPrototypeOf this k v) = Basic.inherited this.
Proof.
  intros Hne. unfold Basic.assign. by destruct (decide _) as [[? _]|].
Qed.

Lemma assign_own_entry this (k : string) (v : V) :
  k <> "__proto__" ->
  Basic.own (Basic.assign setPrototypeOf this k v) !! k = Some v.
Proof.
  intros Hne. unfold Basic.assign. destruct (decide _) as [[? _]|]; [done|].
  simpl. apply lookup_insert_eq.
Qed.

Lemma assign_entries_own_other entries this (key : string) :
  key ∉ entries.*1 ->
  Basic.own (Basic.assign_entries setPrototypeOf entries this) !! key
  = Basic.own this !! key.
Proof.
  revert this. induction entries as [|[k v] entries IH]; intros this Hkey; [done|].
  rewrite fmap_cons, not_elem_of_cons in Hkey. destruct Hkey as [Hne Hkey].
  unfold Basic.assign_entries in *. simpl. rewrite IH by done.
  by apply assign_own_other.
Qed.

Lemma assign_entries_inherited entries this :
  "__proto__" ∉ entries.*1 ->
  Basic.inherited (Basic.assign_entries setPrototypeOf entries this)
  = Basic.inherited this.
Proof.
  revert this. induction entries as [|[k v] entries IH]; intros this Hkey; [done|].
  rewrite fmap_cons, not_elem_of_cons in Hkey. destruct Hkey as [Hne Hkey].
  unfold Basic.assign_entries in *. simpl. rewrite IH by done.
  by apply assign_inherited_other.
Qed.

Lemma assign_entries_own_entry entries this (key : string) (val : V) :
  NoDup entries.*1 -> (key, val) ∈ entries -> key <> "__proto__" ->
  Basic.own (Basic.assign_entries setPrototypeOf entries this) !! key = Some val.
Proof.
  revert this. induction entries as [|[k v] entries IH]; intros this Hnodup Hin Hne.
  - by apply elem_of_nil in Hin.
  - rewrite fmap_cons in Hnodup. apply NoDup_cons in Hnodup as [Hfresh Hnodup].
    apply elem_of_cons in Hin as [[= -> ->]|Hin].
    + unfold Basic.assign_entries. simpl.
      fold (Basic.assign_entries setPrototypeOf entries
              (Basic.assign setPrototypeOf this k v)).
      rewrite assign_entries_own_other by done. by apply assign_own_entry.
    + unfold Basic.assign_entries in *. simpl. by apply IH.
Qed.

(** The assignment under [__proto__] that goes to the setter. *)
Lemma assign_entries_setter entries this (val : V) :
  NoDup entries.*1 -> ("__proto__", val) ∈ entries ->
  Basic.own this !! "__proto__" = None ->
  "__proto__" ∈ Basic.inherited this ->
  Basic.own (Basic.assign_entries setPrototypeOf entries this) !! "__proto__" = None /\
  Basic.inherited (Basic.assign_entries setPrototypeOf entries this)
  = setPrototypeOf val (Basic.inherited this).
Proof.
  revert this. induction entries as [|[k v] entries IH];
    intros this Hnodup Hin Hown Hinherited.
  - by apply elem_of_nil in Hin.
  - rewrite fmap_cons in Hnodup. apply NoDup_cons in Hnodup as [Hfresh Hnodup].
    unfold Basic.assign_entries. simpl.
    fold (Basic.assign_entries setPrototypeOf entries
            (Basic.assign setPrototypeOf this k v)).
    apply elem_of_cons in Hin as [[= <- <-]|Hin].
    + rewrite assign_entries_own_other, assign_entries_inherited by done.
      unfold Basic.assign. by rewrite decide_True.
    + assert (k <> "__proto__") as Hne.
      { intros ->. apply Hfresh, list_elem_of_fmap. by exists ("__proto__", val). }
      destruct (IH (Basic.assign setPrototypeOf this k v)) as [Hown' Hinherited'];
        [done|done|by rewrite assign_own_other|by rewrite assign_inherited_other|].
      by rewrite Hown', Hinherited', assign_inherited_other.
Qed.

Lemma assign_entries_own_kept entries this (key : string) :
  is_Some (Basic.own this !! key) ->
  is_Some (Basic.own (Basic.assign_entries setPrototypeOf entries this) !! key).
Proof.
  revert this. induction entries as [|[k v] entries IH]; intros this Hsome; [done|].
  unfold Basic.assign_entries. simpl. apply IH.
  unfold Basic.assign. destruct (decide _); simpl; [done|].
  destruct (decide (k = key)) as [->|Hne].
  - rewrite lookup_insert_eq. by eexists.
  - by rewrite lookup_insert_ne.
Qed.

Lemma assign_entries_own_from entries this (key : string) :
  is_Some (Basic.own (Basic.assign_entries setPrototypeOf entries this) !! key) ->
  is_Some (Basic.own this !! key) \/ key ∈ entries.*1.
Proof.
  revert this. induction entries as [|[k v] entries IH]; intros this Hsome; [by left|].
  unfold Basic.assign_entries in Hsome. simpl in Hsome.
  apply IH in Hsome as [Hsome|Hin]; [|right; rewrite fmap_cons; by right].
  unfold Basic.assign in Hsome. destruct (decide _); simpl in Hsome; [by left|].
  destruct (decide (k = key)) as [->|Hne].
  - right. rewrite fmap_cons. by left.
  - left. by rewrite lookup_insert_ne in Hsome.
Qed.

Lemma cast_entries_NoDup src this :
  NoDup (filter (fun entry => Basic.has_property this entry.1) (map_to_list src)).*1.
Proof.
  eapply sublist_NoDup; [apply (NoDup_fst_map_to_list src)|].
  apply fmap_sublist, sublist_filter.
Qed.

Lemma cast_entries_elem_of src this (key : string) (val : V) :
  (key, val) ∈ filter (fun entry => Basic.has_property this entry.1) (map_to_list src)
  <-> Basic.has_property this key /\ src !! key = Some val.
Proof. by rewrite list_elem_of_filter, elem_of_map_to_list. Qed.

Lemma cast_entries_not_elem_of src this (key : string) :
  src !! key = None \/ ~ Basic.has_property this key ->
  key ∉ (filter (fun entry => Basic.has_property this entry.1) (map_to_list src)).*1.
Proof.
  intros Hno ([k v] & -> & [Hhas Hsrc]%cast_entries_elem_of)%list_elem_of_fmap.
  simpl in *. destruct Hno; [congruence|done].
Qed.

(** What [cast] leaves under each key but [__proto__]. *)
Lemma cast_lookup src this (key : string) :
  key <> "__proto__" ->
  Basic.own (Basic.cast setPrototypeOf src this) !! key =
    match src !! key with
    | Some val => if decide (Basic.has_property this key)
                  then Some val else Basic.own this !! key
    | None => Basic.own this !! key
    end.
Proof.
  intros Hne. unfold Basic.cast.
  destruct (src !! key) as [val|] eqn:Hsrc.
  - destruct (decide _) as [Hhas|Hhas].
    + apply assign_entries_own_entry; [apply cast_entries_NoDup| |done].
      by apply cast_entries_elem_of.
    + apply assign_entries_own_other, cast_entries_not_elem_of. by right.
  - apply assign_entries_own_other, cast_entries_not_elem_of. by left.
Qed.

(** A source with no property [__proto__] leaves the prototype chain and
    the own property of that name alone. *)
Lemma cast_keeps_chain src this :
  src !! "__proto__" = None ->
  Basic.inherited (Basic.cast setPrototypeOf src this) = Basic.inherited this /\
  Basic.own (Basic.cast setPrototypeOf src this) !! "__proto__"
  = Basic.own this !! "__proto__".
Proof.
  intros Hsrc. unfold Basic.cast. split.
  - apply assign_entries_inherited, cast_entries_not_elem_of. by left.
  - apply assign_entries_own_other, cast_entries_not_elem_of. by left.
Qed.

Lemma cast_has_property src this (key : string) :
  src !! "__proto__" = None ->
  Basic.has_property (Basic.cast setPrototypeOf src this) key
  <-> Basic.has_property this key.
Proof.
  intros Hsrc. unfold Basic.has_property.
  destruct (cast_keeps_chain src this Hsrc) as [-> Hproto].
  destruct (decide (key = "__proto__")) as [->|Hne]; [by rewrite Hproto|].
  rewrite cast_lookup by done.
  destruct (src !! key) as [val|]; [|done].
  destruct (decide _) as [Hhas|Hhas]; [|done].
  split; [done|]. intros _. by left.
Qed.

End BasicProperties.

(** X19.  [cast] writes to the object the entries of the source whose key
    the object answers to, and nothing else.  Under any key but
    [__proto__] such an entry becomes an own property with the value of
    the source; every other key keeps what it had; no own property is
    lost, and a key that is new to the object and to its prototype chain
    is not added.  An entry [__proto__] of the source, on an object that
    only inherits that name, goes to the setter instead: it leaves no own
    property and the prototype chain is what the setter makes of it; with
    no such entry the chain is as before. *)
Theorem Basic_cast_copies_known_keys {V : Type}
    (setPrototypeOf : V -> gset string -> gset string)
    (src : gmap string V) (this : Basic.object V) (key : string) :
  (forall val, src !! key = Some val ->
     Basic.has_property this key -> key <> "__proto__" ->
     Basic.own (Basic.cast setPrototypeOf src this) !! key = Some val) /\
  (src !! key = None \/ ~ Basic.has_property this key ->
   Basic.own (Basic.cast setPrototypeOf src this) !! key = Basic.own this !! key) /\
  dom (Basic.own this) ⊆ dom (Basic.own (Basic.cast setPrototypeOf src this)) /\
  dom (Basic.own (Basic.cast setPrototypeOf src this))
    ⊆ dom (Basic.own this) ∪ Basic.inherited this /\
  (forall val, src !! "__proto__" = Some val ->
     Basic.own this !! "__proto__" = None ->
     "__proto__" ∈ Basic.inherited this ->
     Basic.own (Basic.cast setPrototypeOf src this) !! "__proto__" = None /\
     Basic.inherited (Basic.cast setPrototypeOf src this)
     = setPrototypeOf val (Basic.inherited this)) /\
  (src !! "__proto__" = None ->
   Basic.inherited (Basic.cast setPrototypeOf src this) = Basic.inherited this).
Proof.
  assert (forall val, src !! "__proto__" = Some val ->
            Basic.own this !! "__proto__" = None ->
            "__proto__" ∈ Basic.inherited this ->
            Basic.own (Basic.cast setPrototypeOf src this) !! "__proto__" = None /\
            Basic.inherited (Basic.cast setPrototypeOf src this)
            = setPrototypeOf val (Basic.inherited this)) as Hsetter.
  { intros val Hsrc Hown Hinherited. unfold Basic.cast.
    apply assign_entries_setter; [apply cast_entries_NoDup| |done..].
    apply cast_entries_elem_of. split; [by right|done]. }
  split; [|split; [|split; [|split; [|split]]]].
  - intros val Hsrc Hhas Hne. rewrite cast_lookup, Hsrc by done. by rewrite decide_True.
  - intros Hno. unfold Basic.cast.
    by apply assign_entries_own_other, cast_entries_not_elem_of.
  - intros k Hk%elem_of_dom. apply elem_of_dom.
    by apply assign_entries_own_kept.
  - intros k Hk%elem_of_dom. apply elem_of_union.
    apply assign_entries_own_from in Hk as [Hk|Hk]; [left; by apply elem_of_dom|].
    apply list_elem_of_fmap in Hk as ([k' v] & -> & [[Hown|Hin] _]%cast_entries_elem_of).
    + left. by apply elem_of_dom.
    + by right.
  - exact Hsetter.
  - intros Hsrc. by destruct (cast_keeps_chain setPrototypeOf src this Hsrc).
Qed.

Lemma Basic_cast_copies_known_keys_witness :
  Basic.own (Basic.cast string_to_prototype an_update a_game) !! "name"
    = Some "A game, remastered" /\
  Basic.own (Basic.cast string_to_prototype an_update a_game) !! "engine"
    = Basic.own a_game !! "engine" /\
  Basic.own (Basic.cast string_to_prototype an_update_from_text a_game) !! "__proto__"
    = None.
Proof.
  split; [|split].
  - apply (proj1 (Basic_cast_copies_known_keys string_to_prototype an_update a_game
                    "name")); [reflexivity|left; by eexists|done].
  - apply (proj1 (proj2 (Basic_cast_copies_known_keys string_to_prototype an_update
                           a_game "engine"))).
    right. compute_done.
  - apply (proj1 (proj2 (proj2 (proj2 (proj2
             (Basic_cast_copies_known_keys string_to_prototype an_update_from_text
                a_game "name"))))) "none"); [reflexivity|reflexivity|compute_done].
Defined.

(** X20.  For sources with no property [__proto__], two casts in a row
    are one cast from the two sources put together, the later source
    winning where both have a key; so a cast done twice is the cast done
    once. *)
Theorem Basic_cast_twice {V : Type}
    (setPrototypeOf : V -> gset string -> gset string)
    (first second : gmap string V) (this : Basic.object V) :
  first !! "__proto__" = None ->
  second !! "__proto__" = None ->
  Basic.cast setPrototypeOf second (Basic.cast setPrototypeOf first this)
    = Basic.cast setPrototypeOf (second ∪ first) this /\
  Basic.cast setPrototypeOf first (Basic.cast setPrototypeOf first this)
    = Basic.cast setPrototypeOf first this.
Proof.
  assert (forall o1 o2 : Basic.object V,
            Basic.own o1 = Basic.own o2 -> Basic.inherited o1 = Basic.inherited o2 ->
            o1 = o2) as Hobject.
  { intros [own1 inh1] [own2 inh2]. simpl. by intros -> ->. }
  assert (forall s1 s2 : gmap string V,
            s1 !! "__proto__" = None -> s2 !! "__proto__" = None ->
            Basic.cast setPrototypeOf s2 (Basic.cast setPrototypeOf s1 this)
            = Basic.cast setPrototypeOf (s2 ∪ s1) this) as Htwice.
  { intros s1 s2 H1 H2.
    assert ((s2 ∪ s1) !! "__proto__" = None) as H21
      by (by rewrite lookup_union_r).
    apply Hobject.
    - apply map_eq. intros key.
      destruct (decide (key = "__proto__")) as [->|Hne].
      { rewrite !(proj2 (cast_keeps_chain setPrototypeOf _ _ H2)).
        rewrite !(proj2 (cast_keeps_chain setPrototypeOf _ _ H1)).
        by rewrite !(proj2 (cast_keeps_chain setPrototypeOf _ _ H21)). }
      rewrite !cast_lookup by done.
      destruct (s2 !! key) as [v2|] eqn:Hs2.
      + rewrite (lookup_union_Some_l _ _ _ _ Hs2).
        destruct (decide (Basic.has_property
                            (Basic.cast setPrototypeOf s1 this) key)) as [Hhas|Hhas].
        * apply cast_has_property in Hhas; [|done]. by rewrite decide_True.
        * assert (~ Basic.has_property this key) as Hnot
            by (by rewrite <- (cast_has_property setPrototypeOf s1)).
          rewrite cast_lookup by done.
          destruct (decide (Basic.has_property this key)); [done|].
          by destruct (s1 !! key).
      + rewrite lookup_union_r by done. by rewrite cast_lookup.
    - rewrite !(proj1 (cast_keeps_chain setPrototypeOf _ _ H2)).
      rewrite !(proj1 (cast_keeps_chain setPrototypeOf _ _ H1)).
      by rewrite !(proj1 (cast_keeps_chain setPrototypeOf _ _ H21)). }
  intros Hfirst Hsecond.
  split; [by apply Htwice|]. by rewrite Htwice, (idemp_L (∪) first).
Qed.

Lemma Basic_cast_twice_witness :
  Basic.cast string_to_prototype an_update
    (Basic.cast string_to_prototype an_update a_game)
  = Basic.cast string_to_prototype an_update a_game.
Proof.
  apply (proj2 (Basic_cast_twice string_to_prototype an_update an_update a_game
                  eq_refl eq_refl)).
Defined.

(** * The scraper *)

(** ** Characters of a string *)

Lemma occurs_rev_app (c : ascii) (s1 s2 : string) :
  Text.occurs c (String.rev_app s1 s2) = Text.occurs c s1 || Text.occurs c s2.
Proof.
  revert s2. induction s1 as [|a s1 IH]; intros s2; simpl; [done|].
  rewrite IH. simpl. by destruct (Ascii.eqb a c), (Text.occurs c s1).
Qed.

Lemma occurs_rev (c : ascii) (s : string) :
  Text.occurs c (String.rev s) = Text.occurs c s.
Proof. unfold String.rev. rewrite occurs_rev_app. simpl. by rewrite orb_false_r. Qed.

Lemma occurs_trimStart (c : ascii) (s : string) :
  Text.occurs c (trimStart s) = true -> Text.occurs c s = true.
Proof.
  induction s as [|a s IH]; simpl; [done|].
  destruct (is_white_space a); [|done].
  intros Hc. by rewrite IH, orb_true_r.
Qed.

Lemma occurs_trim (c : ascii) (s : string) :
  Text.occurs c (trim s) = true -> Text.occurs c s = true.
Proof.
  unfold trim. rewrite occurs_rev. intros Hc%occurs_trimStart.
  rewrite occurs_rev in Hc. by apply occurs_trimStart.
Qed.

Lemma split_pieces (c : ascii) (s : string) :
  exists piece pieces, Text.split c s = piece :: pieces.
Proof.
  induction s as [|a s (piece & pieces & IH)]; simpl; [by eexists _, _|].
  rewrite IH. destruct (Ascii.eqb a c); by eexists _, _.
Qed.

(** No piece holds the separator, and a piece holds no character that the
    string does not. *)
Lemma split_occurs (c : ascii) (s piece : string) :
  piece ∈ Text.split c s ->
  Text.occurs c piece = false /\
  forall a, Text.occurs a piece = true -> Text.occurs a s = true.
Proof.
  revert piece. induction s as [|b s IH]; intros piece; simpl.
  - intros ->%list_elem_of_singleton. done.
  - destruct (split_pieces c s) as (first & pieces & Hsplit).
    rewrite Hsplit in IH |- *.
    destruct (Ascii.eqb_spec b c) as [->|Hne].
    + intros [->|Hin]%elem_of_cons; [done|].
      destruct (IH piece Hin) as [Hsep Hsub]. split; [done|].
      intros a Ha. simpl. by rewrite (Hsub a Ha), orb_true_r.
    + intros [->|Hin]%elem_of_cons.
      * destruct (IH first) as [Hsep Hsub]; [by left|]. split.
        -- simpl. rewrite Hsep. by apply Ascii.eqb_neq in Hne as ->.
        -- intros a. simpl. destruct (Ascii.eqb b a); [done|]. simpl.
           apply Hsub.
      * destruct (IH piece) as [Hsep Hsub]; [by right|]. split; [done|].
        intros a Ha. simpl. by rewrite (Hsub a Ha), orb_true_r.
Qed.

(** ** The prefixes of a title *)

Lemma parseGamePrefix_loop (engines statuses : list string)
    (toUpperCase : string -> string) (texts : list string) :
  let found :=
    foldl (Scraper.parseGamePrefix engines statuses toUpperCase)
      {| Scraper.engine := None; Scraper.status := None; Scraper.mod_ := false |}
      texts in
  let prefixes := map Scraper.prefix_text texts in
  (forall e, Scraper.engine found = Some e ->
     e ∈ prefixes /\ Scraper.isEngine engines toUpperCase e = true) /\
  (Scraper.engine found = None ->
   Forall (fun p => Scraper.isEngine engines toUpperCase p = false) prefixes) /\
  (forall s, Scraper.status found = Some s ->
     s ∈ prefixes /\ Scraper.isStatus statuses toUpperCase s = true
     /\ Scraper.isEngine engines toUpperCase s = false) /\
  (Scraper.status found = None ->
   Forall (fun p => Scraper.isEngine engines toUpperCase p = true
                    \/ Scraper.isStatus statuses toUpperCase p = false) prefixes) /\
  (Scraper.mod_ found = true <->
   Exists (fun p => Scraper.isEngine engines toUpperCase p = false
                    /\ Scraper.isStatus statuses toUpperCase p = false
                    /\ Scraper.isMod toUpperCase p = true) prefixes).
Proof.
  induction texts as [|text texts IH] using rev_ind; simpl.
  - repeat split; try done; try constructor.
    by intros ?%Exists_nil.
  - rewrite foldl_app, map_app. simpl.
    set (found := foldl _ _ texts) in *.
    set (prefixes := map Scraper.prefix_text texts) in *.
    destruct IH as (He & Hne & Hs & Hns & Hm). simpl in *.
    unfold Scraper.parseGamePrefix at 1 2 3 4 5.
    set (prefix := Scraper.prefix_text text).
    assert (prefix ∈ prefixes ++ [prefix]) as Hlast
      by (apply elem_of_app; right; apply list_elem_of_singleton; done).
    assert (forall p, p ∈ prefixes -> p ∈ prefixes ++ [prefix]) as Hold
      by (intros p Hp; apply elem_of_app; by left).
    rewrite !Forall_app, !Forall_singleton, Exists_app, Exists_cons, Exists_nil.
    destruct (Scraper.isEngine engines toUpperCase prefix) eqn:Hengine; simpl;
      [|destruct (Scraper.isStatus statuses toUpperCase prefix) eqn:Hstatus; simpl;
        [|destruct (Scraper.isMod toUpperCase prefix) eqn:Hmod; simpl]].
    + split; [by intros e [= <-]|]. split; [done|].
      split; [intros s Hfound; destruct (Hs s Hfound) as (? & ? & ?); auto|].
      split; [auto|]. rewrite Hm. split; [by left|].
      intros [?|[(? & _)|[]]]; [done|congruence].
    + split; [intros e Hfound; destruct (He e Hfound); auto|].
      split; [auto|]. split; [by intros s [= <-]|]. split; [done|].
      rewrite Hm. split; [by left|].
      intros [?|[(_ & ? & _)|[]]]; [done|congruence].
    + split; [intros e Hfound; destruct (He e Hfound); auto|].
      split; [auto|].
      split; [intros s Hfound; destruct (Hs s Hfound) as (? & ? & ?); auto|].
      split; [auto|]. split; [|done]. intros _. right. by left.
    + split; [intros e Hfound; destruct (He e Hfound); auto|].
      split; [auto|].
      split; [intros s Hfound; destruct (Hs s Hfound) as (? & ? & ?); auto|].
      split; [auto|]. rewrite Hm. split; [by left|].
      intros [?|[(_ & _ & ?)|[]]]; [done|congruence].
Qed.

(** X21. [parseGamePrefixes] reads the engine, the status and the mod flag
    off the prefixes of the title, brackets and white space removed: an
    engine it returns is one of the prefixes and is an engine, and it
    returns none only if no prefix is an engine; the status is always set,
    to a prefix that is a status and not an engine or else to "Ongoing",
    and to "Ongoing" when no prefix is a status without being an engine;
    the mod flag is set exactly when some prefix is a mod prefix and
    neither an engine nor a status. *)
Theorem parseGamePrefixes_reads_prefixes (engines statuses : list string)
    (toUpperCase : string -> string) (texts : list string) :
  let found := Scraper.parseGamePrefixes engines statuses toUpperCase texts in
  let prefixes := map Scraper.prefix_text texts in
  (forall e, Scraper.engine found = Some e ->
     e ∈ prefixes /\ Scraper.isEngine engines toUpperCase e = true) /\
  (Scraper.engine found = None ->
   Forall (fun p => Scraper.isEngine engines toUpperCase p = false) prefixes) /\
  (exists s, Scraper.status found = Some s /\
     (s = "Ongoing" \/
      (s ∈ prefixes /\ Scraper.isStatus statuses toUpperCase s = true
       /\ Scraper.isEngine engines toUpperCase s = false))) /\
  (Forall (fun p => Scraper.isEngine engines toUpperCase p = true
                    \/ Scraper.isStatus statuses toUpperCase p = false) prefixes ->
   Scraper.status found = Some "Ongoing") /\
  (Scraper.mod_ found = true <->
   Exists (fun p => Scraper.isEngine engines toUpperCase p = false
                    /\ Scraper.isStatus statuses toUpperCase p = false
                    /\ Scraper.isMod toUpperCase p = true) prefixes).
Proof.
  intros found prefixes.
  destruct (parseGamePrefix_loop engines statuses toUpperCase texts)
    as (He & Hne & Hs & Hns & Hm).
  subst found. unfold Scraper.parseGamePrefixes. simpl.
  split; [done|]. split; [done|]. split; [|split; [|done]].
  - destruct (Scraper.status _) as [s|] eqn:Hstatus; simpl.
    + exists s. split; [done|]. right. by apply Hs.
    + exists "Ongoing". by split; [|left].
  - intros Hnone. destruct (Scraper.status _) as [s|] eqn:Hstatus; simpl; [|done].
    destruct (Hs s eq_refl) as (Hin & Hstat & Heng).
    rewrite Forall_forall in Hnone. destruct (Hnone s Hin); congruence.
Qed.

Lemma parseGamePrefixes_reads_prefixes_witness :
  "Ren'Py" ∈ map Scraper.prefix_text [" [Ren'Py] "; "[Completed]"; "[Mod]"]
  /\ Scraper.isEngine known_engines upper "Ren'Py" = true.
Proof.
  apply (proj1 (parseGamePrefixes_reads_prefixes known_engines known_statuses upper
                  [" [Ren'Py] "; "[Completed]"; "[Mod]"]) "Ren'Py").
  reflexivity.
Defined.

(** ** The overview *)

Lemma substring_nothing (n : nat) (s : string) : String.substring n 0 s = "".
Proof. revert s. induction n as [|n IH]; intros [|a s]; simpl; auto. Qed.

(** X22. When the text of the post does not hold the marker that ends the
    overview ("Updated" for a mod, "Thread Updated" for a game), [indexOf]
    answers -1, the substring taken is empty and [getOverview] returns the
    empty string, whatever the text says. *)
Theorem getOverview_without_marker (text : string) (is_mod : bool) :
  String.index 0 (if is_mod then "Updated" else "Thread Updated") text = None ->
  Scraper.getOverview text is_mod = "".
Proof.
  intros Hmarker. unfold Scraper.getOverview, Text.indexOf.
  assert (Text.substring text 0 (-1) = "") as Hsub.
  { unfold Text.substring.
    replace (Z.min (Z.max (-1) 0) (Z.of_nat (String.length text))) with 0 by lia.
    replace (Z.min (Z.max 0 0) (Z.of_nat (String.length text))) with 0 by lia.
    apply substring_nothing. }
  destruct is_mod; rewrite Hmarker, Hsub; reflexivity.
Qed.

Lemma getOverview_without_marker_witness :
  Scraper.getOverview "A game about a game." false = "".
Proof. apply getOverview_without_marker. reflexivity. Defined.

(** ** The lines of the main post *)

Section PostText.

Context (toUpperCase : string -> string).

(** What is kept of a line is not empty and holds neither a colon nor a
    line feed. *)
Lemma parse_line_values (data : gmap string string) (line : string) :
  Text.occurs (ascii_of_N 10) line = false ->
  map_Forall (fun _ value =>
    value <> "" /\ Text.occurs ":" value = false
    /\ Text.occurs (ascii_of_N 10) value = false) data ->
  map_Forall (fun _ value =>
    value <> "" /\ Text.occurs ":" value = false
    /\ Text.occurs (ascii_of_N 10) value = false)
    (Scraper.parse_line toUpperCase data line).
Proof.
  intros Hline Hdata. unfold Scraper.parse_line.
  destruct (negb (includes ":" line)); [done|].
  set (value := trim _).
  destruct (String.eqb_spec value "") as [Hempty|Hvalue]; simpl; [done|].
  apply map_Forall_insert_2; [|done].
  split; [done|].
  assert (forall a, Text.occurs a line = false ->
                    Text.occurs a (default "" (Text.split ":" line !! 1%nat)) = false)
    as Hchars.
  { intros a Ha. destruct (Text.split ":" line !! 1%nat) as [piece|] eqn:Hpiece; [|done].
    simpl. apply list_elem_of_lookup_2, split_occurs in Hpiece as [_ Hsub].
    destruct (Text.occurs a piece) eqn:Hin; [|done].
    by rewrite (Hsub a Hin) in Ha. }
  split.
  - destruct (Text.occurs ":" value) eqn:Hin; [|done].
    apply occurs_trim in Hin.
    destruct (Text.split ":" line !! 1%nat) as [piece|] eqn:Hpiece; [|done].
    simpl in Hin. apply list_elem_of_lookup_2, split_occurs in Hpiece as [Hsep _].
    congruence.
  - destruct (Text.occurs (ascii_of_N 10) value) eqn:Hin; [|done].
    apply occurs_trim in Hin. by rewrite (Hchars _ Hline) in Hin.
Qed.

Lemma parse_lines_values (lines : list string) :
  Forall (fun line => Text.occurs (ascii_of_N 10) line = false) lines ->
  map_Forall (fun _ value =>
    value <> "" /\ Text.occurs ":" value = false
    /\ Text.occurs (ascii_of_N 10) value = false)
    (foldl (Scraper.parse_line toUpperCase) ∅ lines).
Proof.
  induction lines as [|line lines IH] using rev_ind.
  - intros _. apply map_Forall_empty.
  - rewrite Forall_app, Forall_singleton, foldl_app. intros [Hlines Hline].
    apply parse_line_values; [exact Hline|by apply IH].
Qed.

Lemma truthy_member_None (data : gmap string string) (key : string) :
  map_Forall (fun _ value => value <> "") data ->
  Scraper.truthy_member data key = None -> data !! key = None.
Proof.
  intros Hdata. unfold Scraper.truthy_member.
  destruct (data !! key) as [[|c rest]|] eqn:Hkey; try done.
  by destruct (Hdata key "" Hkey).
Qed.

End PostText.

(** X23. Whatever the text of the post, the dictionary [Various] that
    [parseMainPostText] returns never holds the keys CENSORED, OS and
    LANGUAGE (they are moved to members of their own), and every value it
    holds is a non-empty text with no colon and no line feed in it: of a
    line, only what stands between the first and the second colon is
    kept. *)
Theorem parseMainPostText_various (toUpperCase : string -> string)
    (isValid : string -> bool) (new_Date : string -> Date) (text : string) :
  let various :=
    Scraper.Various (Scraper.parseMainPostText toUpperCase isValid new_Date text) in
  various !! "CENSORED" = None /\ various !! "OS" = None
  /\ various !! "LANGUAGE" = None /\
  forall key value, various !! key = Some value ->
    value <> "" /\ Text.occurs ":" value = false
    /\ Text.occurs (ascii_of_N 10) value = false.
Proof.
  intros various. subst various. unfold Scraper.parseMainPostText.
  set (data := foldl _ _ _).
  assert (map_Forall (fun _ value =>
            value <> "" /\ Text.occurs ":" value = false
            /\ Text.occurs (ascii_of_N 10) value = false) data) as Hinv.
  { apply parse_lines_values, Forall_forall. intros line Hline.
    by apply split_occurs in Hline as [Hsep _]. }
  assert (map_Forall (fun _ value : string => value <> "") data) as Hne.
  { intros key value Hkey. by destruct (Hinv key value Hkey). }
  clearbody data.
  destruct (Scraper.truthy_member data "CENSORED") eqn:Hcensored;
    (destruct (Scraper.valid_member isValid _ "UPDATED");
     [|destruct (Scraper.valid_member isValid _ "THREAD_UPDATED")]);
    match goal with
    | |- context [Scraper.truthy_member ?m "OS"] =>
        destruct (Scraper.truthy_member m "OS") eqn:Hos
    end;
    match goal with
    | |- context [Scraper.truthy_member ?m "LANGUAGE"] =>
        destruct (Scraper.truthy_member m "LANGUAGE") eqn:Hlanguage
    end;
    cbn [Scraper.Various];
    (split; [|split; [|split]]);
    try (intros key value Hkey;
         repeat (apply lookup_delete_Some in Hkey as [_ Hkey]);
         exact (Hinv key value Hkey));
    repeat first
      [ apply lookup_delete_eq
      | match goal with
        | |- ?m !! ?key = None =>
            apply (truthy_member_None m key);
            [repeat apply map_Forall_delete; exact Hne|assumption]
        end
      | rewrite lookup_delete_ne by done ].
Qed.

Lemma parseMainPostText_various_witness :
  "https" <> "" /\ Text.occurs ":" "https" = false
  /\ Text.occurs (ascii_of_N 10) "https" = false.
Proof.
  apply (proj2 (proj2 (proj2
           (parseMainPostText_various upper (fun _ => true) (fun _ => Some 5) post_text)))
           "STORE" "https").
  vm_compute. reflexivity.
Defined.

(** * Posts *)

(** X24. [Post.fetch] checks before it reads anything: without a login it
    throws [UserNotLogged], and with a login but an identifier below 1 it
    throws [InvalidID]; in both cases the post is left as it was, whether
    or not a page was handed in. *)
Theorem Post_fetch_refuses (P : Platform) (isLogged : bool) (POSTS : string)
    (UserNotLogged InvalidID : string -> error)
    (USER_NOT_LOGGED INVALID_POST_ID : string)
    (elaborateResponse : string -> method Post unit)
    (html : option string) (this : Post) :
  isLogged = false \/ post_id this < 1 ->
  PostMethods.fetch P isLogged POSTS UserNotLogged InvalidID
    USER_NOT_LOGGED INVALID_POST_ID elaborateResponse html this
  = (Throw (if isLogged then InvalidID INVALID_POST_ID
            else UserNotLogged USER_NOT_LOGGED), this).
Proof.
  intros Hguard. unfold PostMethods.fetch.
  destruct isLogged; simpl; [|done].
  destruct Hguard as [|Hid]; [done|].
  assert ((post_id this <? 1) = true) as -> by lia.
  by rewrite orb_true_r.
Qed.

Lemma Post_fetch_refuses_witness :
  PostMethods.fetch site_three_pages true "https://f95zone.to/posts/"
    not_logged invalid_id "User not authenticated" "Invalid post ID"
    keep_page (Some "a page") (post 0 "")
  = (Throw (invalid_id "Invalid post ID"), post 0 "").
Proof.
  apply (Post_fetch_refuses site_three_pages true "https://f95zone.to/posts/"
           not_logged invalid_id "User not authenticated" "Invalid post ID"
           keep_page (Some "a page") (post 0 "")).
  right. simpl. lia.
Defined.

(** X25. Handing the page to [Post.fetch] does not spare the request: the
    post is filled from the page that was given, then the page of the post
    is requested all the same; if that request fails its failure is
    thrown, and if it succeeds the post is filled a second time, from the
    page received. *)
Theorem Post_fetch_requests_although_page_given (P : Platform) (POSTS : string)
    (UserNotLogged InvalidID : string -> error)
    (USER_NOT_LOGGED INVALID_POST_ID : string)
    (elaborateResponse : string -> method Post unit)
    (html url : string) (this this' : Post) :
  1 <= post_id this ->
  html <> "" ->
  elaborateResponse html this = (Return tt, this') ->
  new_URL P (pretty (post_id this')) POSTS = Some url ->
  (forall e, fetchHTML P url = failure e ->
     PostMethods.fetch P true POSTS UserNotLogged InvalidID
       USER_NOT_LOGGED INVALID_POST_ID elaborateResponse (Some html) this
     = (Throw e, this')) /\
  (forall value, fetchHTML P url = success value ->
     PostMethods.fetch P true POSTS UserNotLogged InvalidID
       USER_NOT_LOGGED INVALID_POST_ID elaborateResponse (Some html) this
     = elaborateResponse value this').
Proof.
  intros Hid Hhtml Hfirst Hurl. unfold PostMethods.fetch. simpl.
  assert ((post_id this =? 0) = false) as -> by lia.
  assert ((post_id this <? 1) = false) as -> by lia.
  simpl. destruct html as [|c rest]; [done|].
  unfold bind. rewrite Hfirst, Hurl.
  split; intros ? ->; done.
Qed.

Lemma Post_fetch_requests_although_page_given_witness :
  PostMethods.fetch site_three_pages true "https://f95zone.to/posts/"
    not_logged invalid_id "User not authenticated" "Invalid post ID"
    keep_page (Some "a page") (post 7 "")
  = (Throw (GenericAxiosError 1 "Request failed with status code 404"),
     post 7 "a page").
Proof.
  apply (proj1 (Post_fetch_requests_although_page_given site_three_pages
                  "https://f95zone.to/posts/" not_logged invalid_id
                  "User not authenticated" "Invalid post ID" keep_page
                  "a page" "https://f95zone.to/posts/7" (post 7 "") (post 7 "a page")
                  ltac:(simpl; lia) ltac:(done) eq_refl eq_refl)).
  reflexivity.
Defined.

(** * The data of the platform *)

Lemma last_index_get (c : ascii) (s : string) (j : nat) :
  Text.last_index c s = Some j ->
  String.get j s = Some c /\ (j < String.length s)%nat.
Proof.
  revert j. induction s as [|a s IH]; intros j; simpl; [done|].
  destruct (Text.last_index c s) as [n|].
  - intros [= <-]. destruct (IH n eq_refl). split; [done|lia].
  - destruct (Ascii.eqb_spec a c) as [->|]; [|done].
    intros [= <-]. split; [done|lia].
Qed.

Lemma get_in_string (c : ascii) (s : string) (i : nat) :
  String.get i s = Some c -> (i < String.length s)%nat.
Proof.
  revert i. induction s as [|a s IH]; intros [|i]; simpl; try done; try lia.
  intros Hget%IH. lia.
Qed.

Lemma index_get (c : ascii) (s : string) (i : nat) :
  String.index 0 (String c "") s = Some i -> String.get i s = Some c.
Proof.
  intros Hindex. apply String.index_correct1 in Hindex.
  pose proof (String.substring_correct1 s i 1 0 ltac:(lia)) as Hget.
  change (String.length (String c "")) with 1%nat in Hindex.
  rewrite Hindex in Hget. simpl in Hget. done.
Qed.

Lemma substring_length (s : string) (n m : nat) :
  (n + m <= String.length s)%nat -> String.length (String.substring n m s) = m.
Proof.
  revert n m. induction s as [|a s IH]; intros [|n] [|m]; simpl; try lia.
  - intros Hlen. rewrite (IH 0%nat m) by lia. done.
  - intros Hlen. by rewrite (IH n 0%nat) by lia.
  - intros Hlen. by rewrite (IH n (S m)) by lia.
Qed.

(** X26. When the script has an opening brace at or before its last
    closing brace, the text given to [JSON.parse] begins with that first
    opening brace, ends with that last closing brace, and is as long as
    the stretch between them. *)
Theorem parsedText_from_brace_to_brace (unparsedText : string) (i j : nat) :
  String.index 0 "{" unparsedText = Some i ->
  Text.last_index "}" unparsedText = Some j ->
  (i <= j)%nat ->
  String.get 0 (PlatformData.parsedText unparsedText) = Some "{"%char /\
  String.get (j - i) (PlatformData.parsedText unparsedText) = Some "}"%char /\
  String.length (PlatformData.parsedText unparsedText) = (j - i + 1)%nat.
Proof.
  intros Hfirst Hlast Hle.
  destruct (last_index_get _ _ _ Hlast) as [Hclose Hj].
  pose proof (index_get _ _ _ Hfirst) as Hopen.
  unfold PlatformData.parsedText, Text.indexOf, Text.lastIndexOf, Text.substring.
  rewrite Hfirst, Hlast.
  replace (Z.min (Z.max (Z.of_nat i) 0) (Z.of_nat (String.length unparsedText)))
    with (Z.of_nat i) by lia.
  replace (Z.min (Z.max (Z.of_nat j + 1) 0) (Z.of_nat (String.length unparsedText)))
    with (Z.of_nat j + 1) by lia.
  replace (Z.to_nat (Z.min (Z.of_nat i) (Z.of_nat j + 1))) with i by lia.
  replace (Z.to_nat (Z.max (Z.of_nat i) (Z.of_nat j + 1)
                     - Z.min (Z.of_nat i) (Z.of_nat j + 1)))
    with (j - i + 1)%nat by lia.
  rewrite !String.substring_correct1 by lia.
  rewrite substring_length by lia.
  replace (j - i + i)%nat with j by lia. done.
Qed.

Lemma parsedText_from_brace_to_brace_witness :
  String.get 0 (PlatformData.parsedText "var latestUpdates = {a:{}};") = Some "{"%char /\
  String.get 5 (PlatformData.parsedText "var latestUpdates = {a:{}};") = Some "}"%char /\
  String.length (PlatformData.parsedText "var latestUpdates = {a:{}};") = 6%nat.
Proof.
  apply (parsedText_from_brace_to_brace "var latestUpdates = {a:{}};" 20 25);
    [reflexivity|reflexivity|lia].
Defined.

(** X27. When the script has no closing brace, [lastIndexOf] answers -1
    and [substring] is called with an end of 0: it swaps its two ends, and
    the text given to [JSON.parse] is what stands before the first opening
    brace (nothing when there is none). *)
Theorem parsedText_without_closing_brace (unparsedText : string) :
  Text.last_index "}" unparsedText = None ->
  PlatformData.parsedText unparsedText
  = String.substring 0 (default 0%nat (String.index 0 "{" unparsedText)) unparsedText.
Proof.
  intros Hlast.
  unfold PlatformData.parsedText, Text.indexOf, Text.lastIndexOf, Text.substring.
  rewrite Hlast.
  destruct (String.index 0 "{" unparsedText) as [i|] eqn:Hfirst; simpl default.
  - assert (i < String.length unparsedText)%nat as Hi.
    { by apply index_get, get_in_string in Hfirst. }
    f_equal; lia.
  - f_equal; lia.
Qed.

Lemma parsedText_without_closing_brace_witness :
  PlatformData.parsedText "latest = {a:1" = "latest = ".
Proof.
  apply (parsedText_without_closing_brace "latest = {a:1"). reflexivity.
Defined.

(** * More on the network helpers *)

(** ** Strings *)

Lemma prefix_append (p s : string) : String.prefix p (p +:+ s) = true.
Proof.
  induction p as [|c p IH]; simpl; [by destruct s|].
  destruct (ascii_dec c c); [exact IH|done].
Qed.

Import NetworkHelper.

(** ** The page of a URL *)

(** X6.  [fetchHTML] of this network helper never gives a page.  The
    content type is read off the response as its member "content-type",
    which a response does not have: when the request is answered the call
    throws a [TypeError]; a failure of the request is handed on as it is;
    and a URL that the URL check throws on makes the call throw, since the
    URL is secured outside the [try]. *)
Theorem fetchHTML_never_gives_page
    (match_URL : string -> option (string * list (option string)))
    (axios_get : option string -> outcome AxiosResponse) (url : string) :
  (forall html, fetchHTML match_URL axios_get url <> Return (success html)) /\
  (forall response,
     fetchGETResponse match_URL axios_get url = Return (success response) ->
     fetchHTML match_URL axios_get url
       = Throw (TypeError "Cannot read properties of undefined (reading 'includes')")) /\
  (forall e,
     fetchGETResponse match_URL axios_get url = Return (failure e) ->
     fetchHTML match_URL axios_get url = Return (failure e)) /\
  (match_URL url = None ->
   exists e, fetchHTML match_URL axios_get url = Throw e).
Proof.
  unfold fetchHTML. split; [|split; [|split]].
  - intros html. by destruct (fetchGETResponse _ _ _) as [[e|response]|e|].
  - by intros response ->.
  - by intros e ->.
  - intros Hurl. unfold fetchGETResponse, enforceHttpsUrl, isStringAValidURL.
    rewrite Hurl. by eexists.
Qed.

Lemma fetchHTML_never_gives_page_witness :
  fetchHTML any_url_matches get_answers "https://f95zone.to/threads/1/"
    = Throw (TypeError "Cannot read properties of undefined (reading 'includes')") /\
  fetchHTML any_url_matches get_unreachable "https://f95zone.to/threads/1/"
    = Return (failure (GenericAxiosError 1
        "Error getaddrinfo ENOTFOUND f95zone.to occurred while trying to fetch https://f95zone.to/threads/1/")).
Proof.
  split.
  - eapply (proj1 (proj2 (fetchHTML_never_gives_page any_url_matches get_answers
                            "https://f95zone.to/threads/1/"))).
    reflexivity.
  - apply (proj1 (proj2 (proj2 (fetchHTML_never_gives_page any_url_matches
                                  get_unreachable "https://f95zone.to/threads/1/")))).
    reflexivity.
Defined.

(** ** The scheme of a URL *)

Lemma strip_prefix_append (p s rest : string) :
  strip_prefix p s = Some rest -> s = p +:+ rest.
Proof.
  revert s. induction p as [|a p IH]; intros s; simpl.
  - by intros [= ->].
  - destruct s as [|b s]; [done|].
    destruct (Ascii.eqb_spec a b) as [->|]; [|done].
    intros Hrest. by rewrite (IH s Hrest).
Qed.

Lemma strip_prefix_None (p s : string) :
  strip_prefix p s = None -> String.prefix p s = false.
Proof.
  revert s. induction p as [|a p IH]; intros s; [done|].
  destruct s as [|b s]; [done|].
  cbn [strip_prefix String.prefix].
  destruct (Ascii.eqb_spec a b) as [->|Hne]; destruct (ascii_dec _ b) as [Heq|Hneq].
  - apply IH.
  - done.
  - done.
  - done.
Qed.

Lemma replace_scheme_https (rest : string) :
  replace_scheme ("https://" +:+ rest) = "https://" +:+ rest.
Proof. reflexivity. Qed.

(** The scheme after the replacement. *)
Lemma replace_scheme_cases (url : string) :
  (exists rest, replace_scheme url = "https://" +:+ rest /\
     (url = "https://" +:+ rest \/ url = "http://" +:+ rest \/ url = "//" +:+ rest)) \/
  (replace_scheme url = url /\
   String.prefix "https://" url = false /\ String.prefix "http://" url = false /\
   String.prefix "//" url = false).
Proof.
  unfold replace_scheme.
  destruct (strip_prefix "https://" url) as [rest|] eqn:Hs.
  { left. exists rest. split; [done|]. left. by apply strip_prefix_append. }
  destruct (strip_prefix "http://" url) as [rest|] eqn:Hp.
  { left. exists rest. split; [done|]. right; left. by apply strip_prefix_append. }
  destruct (strip_prefix "//" url) as [rest|] eqn:Hr.
  { left. exists rest. split; [done|]. right; right. by apply strip_prefix_append. }
  right. by repeat split; try apply strip_prefix_None.
Qed.

(** X7.  What [enforceHttpsUrl] returns is never [null] and never begins
    with "http://": a URL that begins with "https://", "http://" or "//"
    comes back beginning with "https://", any other comes back as it is,
    and securing the result again changes nothing. *)
Theorem enforceHttpsUrl_returns_secure_url
    (match_URL : string -> option (string * list (option string)))
    (url : string) (result : option string) :
  enforceHttpsUrl match_URL url = Return result ->
  exists secure,
    result = Some secure /\
    String.prefix "http://" secure = false /\
    replace_scheme secure = secure /\
    (String.prefix "https://" url || String.prefix "http://" url
       || String.prefix "//" url = true ->
     String.prefix "https://" secure = true).
Proof.
  unfold enforceHttpsUrl, isStringAValidURL.
  destruct (match_URL url) as [[matched groups]|]; [|done].
  replace (0 <? Z.of_nat (length (Some matched :: groups))) with true
    by (symmetry; apply Z.ltb_lt; simpl; lia).
  intros [= <-]. exists (replace_scheme url). split; [done|].
  destruct (replace_scheme_cases url) as [(rest & -> & _)|(Heq & Hs & Hp & Hr)].
  - split; [reflexivity|]. split; [reflexivity|]. intros _.
    apply (prefix_append "https://" rest).
  - rewrite Heq. split; [done|]. split; [done|]. by rewrite Hs, Hp, Hr.
Qed.

Lemma enforceHttpsUrl_returns_secure_url_witness :
  exists secure,
    Some "https://f95zone.to/login" = Some secure /\
    String.prefix "http://" secure = false /\
    replace_scheme secure = secure /\
    (String.prefix "https://" "http://f95zone.to/login"
       || String.prefix "http://" "http://f95zone.to/login"
       || String.prefix "//" "http://f95zone.to/login" = true ->
     String.prefix "https://" secure = true).
Proof.
  apply (enforceHttpsUrl_returns_secure_url any_url_matches "http://f95zone.to/login").
  reflexivity.
Defined.

(** X8.  A string that the expression of [isStringAValidURL] does not
    match makes the check throw: [isStringAValidURL] never answers false,
    [enforceHttpsUrl] never answers [null] and [urlExists] throws where its
    documentation promises false. *)
Theorem url_checks_throw_on_no_match
    (match_URL : string -> option (string * list (option string)))
    (axios_head : string -> option Z -> head_settlement)
    (url : string) (checkRedirect : bool) :
  isStringAValidURL match_URL url <> Return false /\
  enforceHttpsUrl match_URL url <> Return None /\
  (match_URL url = None ->
   exists e,
     isStringAValidURL match_URL url = Throw e /\
     enforceHttpsUrl match_URL url = Throw e /\
     urlExists match_URL axios_head url checkRedirect = Throw e).
Proof.
  unfold urlExists, enforceHttpsUrl, isStringAValidURL.
  destruct (match_URL url) as [[matched groups]|].
  - replace (0 <? Z.of_nat (length (Some matched :: groups))) with true
      by (symmetry; apply Z.ltb_lt; simpl; lia).
    by repeat split.
  - repeat split; [done..|]. intros _. by eexists.
Qed.

Lemma url_checks_throw_on_no_match_witness :
  exists e,
    isStringAValidURL (fun _ => None) "not a url" = Throw e /\
    enforceHttpsUrl (fun _ => None) "not a url" = Throw e /\
    urlExists (fun _ => None) (head_answers 200) "not a url" false = Throw e.
Proof.
  apply (url_checks_throw_on_no_match (fun _ => None) (head_answers 200)
           "not a url" false).
  reflexivity.
Defined.

(** ** Does a URL exist? *)

(** No status from 200 to 299 has a "4" followed by two digits. *)
Lemma test_4dd_success_status (code : Z) :
  200 <= code <= 299 -> test_4dd (pretty code) = false.
Proof.
  intros Hrange.
  assert (forallb (fun code => negb (test_4dd (pretty code))) (seqZ 200 100) = true)
    as Hall by (vm_compute; reflexivity).
  rewrite forallb_forall in Hall.
  apply negb_true_iff, Hall, list_elem_of_In, elem_of_seqZ. lia.
Qed.

(** X9.  What [axiosUrlExists] answers is decided by how the [HEAD]
    request settles: a request that is fulfilled, which [axios] does for a
    status from 200 to 299, gives true; a rejection with the code
    ENOTFOUND or ETIMEDOUT gives false; and any other rejection is thrown
    on, the one for a status outside 200 to 299 among them. *)
Theorem axiosUrlExists_by_settlement
    (axios_head : string -> option Z -> head_settlement) (url : string) :
  match axios_head url (Some 3000) with
  | head_fulfilled response =>
      200 <= status response <= 299 ->
      axiosUrlExists axios_head url = Return true
  | head_rejected code thrown =>
      axiosUrlExists axios_head url
        = if bool_decide (code = Some "ENOTFOUND" \/ code = Some "ETIMEDOUT")
          then Return false else Throw thrown
  end.
Proof.
  unfold axiosUrlExists.
  destruct (axios_head url (Some 3000)) as [response|code thrown].
  - intros Hrange. by rewrite test_4dd_success_status.
  - destruct code as [code|]; [|by rewrite bool_decide_false by (by intros [?|?])].
    unfold ERROR_CODES.
    destruct (decide (code = "ENOTFOUND")) as [->|Hn]; [done|].
    destruct (decide (code = "ETIMEDOUT")) as [->|Ht]; [done|].
    rewrite (bool_decide_false (code ∈ _)).
    + by rewrite bool_decide_false by (by intros [[= ?]|[= ?]]).
    + rewrite !elem_of_cons, elem_of_nil. by intros [?|[?|?]].
Qed.

Lemma axiosUrlExists_by_settlement_witness :
  axiosUrlExists (head_answers 204) "https://f95zone.to/threads/1/" = Return true /\
  axiosUrlExists (head_answers 503) "https://f95zone.to/threads/1/"
    = Throw (Error "Request failed with status code 503") /\
  axiosUrlExists (head_answers 404) "https://f95zone.to/threads/1/"
    = Throw (Error "Request failed with status code 404").
Proof.
  split; [|split].
  - apply (axiosUrlExists_by_settlement (head_answers 204) "https://f95zone.to/threads/1/").
    simpl. lia.
  - apply (axiosUrlExists_by_settlement (head_answers 503) "https://f95zone.to/threads/1/").
  - apply (axiosUrlExists_by_settlement (head_answers 404) "https://f95zone.to/threads/1/").
Defined.

(** X10.  [urlExists] answers true only when the server answered the
    [HEAD] request with a status whose digits hold no "4" followed by two
    digits, and, where redirects are checked, when the second request
    answered with the very URL that was asked for. *)
Theorem urlExists_true_only_if_answered
    (match_URL : string -> option (string * list (option string)))
    (axios_head : string -> option Z -> head_settlement)
    (url : string) (checkRedirect : bool) :
  urlExists match_URL axios_head url checkRedirect = Return true ->
  (exists response,
     axios_head url (Some 3000) = head_fulfilled response /\
     test_4dd (pretty (status response)) = false) /\
  (checkRedirect = true ->
   exists response,
     axios_head url None = head_fulfilled response /\ config_url response = url).
Proof.
  unfold urlExists, axiosUrlExists, getUrlRedirect, isStringAValidURL.
  destruct (match_URL url) as [[matched groups]|]; [|done].
  replace (0 <? Z.of_nat (length (Some matched :: groups))) with true
    by (symmetry; apply Z.ltb_lt; simpl; lia).
  destruct (axios_head url (Some 3000)) as [response|code thrown].
  - destruct (test_4dd (pretty (status response))) eqn:Htest; simpl.
    + done.
    + destruct checkRedirect; simpl.
      * destruct (axios_head url None) as [response'|code' thrown']; [|done].
        intros [= Heq%String.eqb_eq]. split; [by eexists|]. intros _. by eexists.
      * intros _. split; [by eexists|done].
  - destruct code as [code|]; [|done].
    by destruct (bool_decide (code ∈ ERROR_CODES)).
Qed.

Lemma urlExists_true_only_if_answered_witness :
  (exists response,
     head_answers 200 "https://f95zone.to/" (Some 3000) = head_fulfilled response /\
     test_4dd (pretty (status response)) = false) /\
  (true = true ->
   exists response,
     head_answers 200 "https://f95zone.to/" None = head_fulfilled response /\
     config_url response = "https://f95zone.to/").
Proof.
  apply (urlExists_true_only_if_answered any_url_matches (head_answers 200)
           "https://f95zone.to/" true).
  reflexivity.
Defined.

(** ** Logging in *)


